(** * Notification consumer: events/consumer.js

    A shallow embedding of the queue consumer of the e-commerce
    notification service, and the properties of its acknowledgement
    discipline, of its handlers and of the e-mails they send.

    The source is one JavaScript module.  Its functions are [async]; they
    are embedded in a small monad that threads the document store, records
    every call to an external collaborator (store, mail provider, broker
    channel, console) in a trace, and carries JavaScript exceptions as an
    outcome, so that [try]/[catch] is a combinator. *)

From Stdlib Require Import List String Ascii Bool Arith Lia Permutation.
From Stdlib Require Import DecimalString.
Import ListNotations.
Local Open Scope string_scope.
Local Open Scope list_scope.
Set Warnings "-register-all".

(* ===================================================================== *)
(** * JavaScript values, as [JSON.parse] builds them *)
(* ===================================================================== *)

Declare Scope js_scope.
Delimit Scope js_scope with js.

Module JS.
Local Open Scope string_scope.

(** A decoded message is a tree of JSON values.  [VUndef] is not a JSON
    value: it is what reading an absent property yields.

    A number is held as the text that JavaScript prints for it
    ([Number.prototype.toString]): ["5"], ["19.99"], ["1e+21"]; a decoded
    message holds no other text in a number.  That text determines the
    number, but for the sign of zero, and both zeros print as ["0"];
    [JSON.parse] yields no [NaN].  The program does no arithmetic, it only
    prints, tests and compares numbers.

    An object keeps its properties in the order of the message;
    [JSON.parse] keeps one binding per key, and every property it builds
    holds a JSON value, never a function. *)
Inductive value : Type :=
| VUndef
| VNull
| VBool (b : bool)
| VNum (text : string)
| VStr (s : string)
| VArr (xs : list value)
| VObj (fields : list (string * value)).

(** What a [throw] carries: every exception of this program is an [Error]
    object, read by the handlers through [error.message] only. *)
Record error : Type := Err { err_name : string; err_message : string }.

Inductive outcome (A : Type) : Type :=
| Ok (a : A)
| Throw (e : error).
Arguments Ok {A} a.
Arguments Throw {A} e.

(** Sequencing of evaluations that may throw. *)
Definition obind {A B : Type} (o : outcome A) (k : A -> outcome B)
  : outcome B :=
  match o with
  | Ok a => k a
  | Throw e => Throw e
  end.

Notation "'let?' x := o 'in' k" := (obind o (fun x => k))
  (at level 61, x name, o at next level, right associativity) : js_scope.
Local Open Scope js_scope.

Fixpoint assoc (k : string) (fields : list (string * value)) : option value :=
  match fields with
  | [] => None
  | (k', v) :: rest => if String.eqb k k' then Some v else assoc k rest
  end.

Definition type_error (msg : string) : error := Err "TypeError" msg.

(** The [TypeError] of converting to a string an object whose [toString]
    is not a function. *)
Definition not_primitive : error :=
  type_error "Cannot convert object to primitive value".

(** [Array.prototype.join]: the elements are converted in order; [null]
    and [undefined] elements print as the empty string, the others through
    [render]. *)
Section Join.
Variable render : value -> outcome string.

Definition join_elem (x : value) : outcome string :=
  match x with
  | VUndef | VNull => Ok ""
  | _ => render x
  end.

Fixpoint join_with (sep : string) (xs : list value) : outcome string :=
  match xs with
  | [] => Ok ""
  | [x] => join_elem x
  | x :: rest =>
      let? first := join_elem x in
      let? others := join_with sep rest in
      Ok (first ++ sep ++ others)
  end.
End Join.

(** [String(v)], the conversion a template literal applies to each
    [${...}].  An array prints its elements joined by commas.  An object
    prints through its [toString]: the inherited one yields
    ["[object Object]"], and an own property of that name, which in a
    decoded message is never a function, makes the conversion throw (the
    inherited [valueOf] returns the object itself, an own one is not a
    function either). *)
Fixpoint to_string (v : value) : outcome string :=
  match v with
  | VUndef => Ok "undefined"
  | VNull => Ok "null"
  | VBool true => Ok "true"
  | VBool false => Ok "false"
  | VNum text => Ok text
  | VStr s => Ok s
  | VArr xs =>
      (fix join (l : list value) : outcome string :=
         match l with
         | [] => Ok ""
         | [x] => match x with VUndef | VNull => Ok "" | _ => to_string x end
         | x :: rest =>
             let? first :=
               match x with VUndef | VNull => Ok "" | _ => to_string x end in
             let? others := join rest in
             Ok (first ++ "," ++ others)
         end) xs
  | VObj fields =>
      match assoc "toString" fields with
      | Some _ => Throw not_primitive
      | None => Ok "[object Object]"
      end
  end.

(** [xs.join(sep)] *)
Definition array_join (sep : string) (xs : list value) : outcome string :=
  join_with to_string sep xs.

(** Truthiness, as [||] and [if] test it. *)
Definition truthy (v : value) : bool :=
  match v with
  | VUndef | VNull => false
  | VBool b => b
  | VNum text => negb (String.eqb text "0")
  | VStr s => negb (String.eqb s "")
  | VArr _ | VObj _ => true
  end.

(** [a || b] *)
Definition or_else (a b : value) : value := if truthy a then a else b.

(** [a === b].  Two numbers are equal when they print alike.  Two objects or arrays are equal only when they are the same reference;
    the operands compared by this program are read from different places
    of the decoded tree, hence never the same object. *)
Definition strict_eq (a b : value) : bool :=
  match a, b with
  | VUndef, VUndef => true
  | VNull, VNull => true
  | VBool x, VBool y => Bool.eqb x y
  | VNum x, VNum y => String.eqb x y
  | VStr x, VStr y => String.eqb x y
  | _, _ => false
  end.

(** Structural equality of values: how the document store matches the
    value of a field against the value of a filter. *)
Fixpoint value_eqb (a b : value) : bool :=
  match a, b with
  | VUndef, VUndef => true
  | VNull, VNull => true
  | VBool x, VBool y => Bool.eqb x y
  | VNum x, VNum y => String.eqb x y
  | VStr x, VStr y => String.eqb x y
  | VArr xs, VArr ys =>
      (fix go (l m : list value) : bool :=
         match l, m with
         | [], [] => true
         | x :: l', y :: m' => value_eqb x y && go l' m'
         | _, _ => false
         end) xs ys
  | VObj fs, VObj gs =>
      (fix go (l m : list (string * value)) : bool :=
         match l, m with
         | [], [] => true
         | (k, x) :: l', (k', y) :: m' =>
             String.eqb k k' && value_eqb x y && go l' m'
         | _, _ => false
         end) fs gs
  | _, _ => false
  end.

Definition quote : string := String (ascii_of_nat 39) EmptyString.

(** How an error message names [undefined] or [null]. *)
Definition nullish_name (v : value) : string :=
  match v with
  | VNull => "null"
  | _ => "undefined"
  end.

(** The [TypeError] of reading a property of [undefined] or [null]. *)
Definition cannot_read (v : value) (k : string) : error :=
  type_error ("Cannot read properties of " ++ nullish_name v
              ++ " (reading " ++ quote ++ k ++ quote ++ ")").

(** The property [k] of a value that is neither [undefined] nor [null].
    The property names of this program ([type], [data], [userId],
    [titles], ...) are none of the built-in members of strings, numbers,
    booleans or arrays, so on those the read yields [undefined]. *)
Definition field (v : value) (k : string) : value :=
  match v with
  | VObj fields =>
      match assoc k fields with Some x => x | None => VUndef end
  | _ => VUndef
  end.

(** [v.k] *)
Definition get_prop (v : value) (k : string) : outcome value :=
  match v with
  | VUndef | VNull => Throw (cannot_read v k)
  | _ => Ok (field v k)
  end.

Definition string_of_nat (n : nat) : string :=
  NilZero.string_of_uint (Nat.to_uint n).

(** [v[i]] for an index [i] of [Array.prototype.map]. *)
Definition get_index (v : value) (i : nat) : outcome value :=
  match v with
  | VUndef | VNull => Throw (cannot_read v (string_of_nat i))
  | VArr xs => Ok (nth i xs VUndef)
  | VStr s =>
      Ok (match String.get i s with
          | Some c => VStr (String c EmptyString)
          | None => VUndef
          end)
  | VObj fields =>
      Ok (match assoc (string_of_nat i) fields with
          | Some x => x
          | None => VUndef
          end)
  | _ => Ok VUndef
  end.

(** [v.m(...)] for an array method [m] ([map], [find], [join]) on the
    expression [expr]: a [TypeError] unless [v] is an array. *)
Definition as_array (v : value) (expr m : string) : outcome (list value) :=
  match v with
  | VArr xs => Ok xs
  | VUndef | VNull => Throw (cannot_read v m)
  | _ => Throw (type_error (expr ++ "." ++ m ++ " is not a function"))
  end.

(** [const { first, ... } = expr]: a [TypeError] on [undefined] and
    [null]; the properties are then read with [field]. *)
Definition destructure (v : value) (expr first : string) : outcome value :=
  match v with
  | VUndef | VNull =>
      Throw (type_error ("Cannot destructure property " ++ quote ++ first
                         ++ quote ++ " of " ++ quote ++ expr ++ quote
                         ++ " as it is " ++ nullish_name v ++ "."))
  | _ => Ok v
  end.

(** [v?.k] *)
Definition get_prop_opt (v : value) (k : string) : outcome value :=
  match v with
  | VUndef | VNull => Ok VUndef
  | _ => get_prop v k
  end.

(** [new Date(v)]: an object or an array is first converted to a
    primitive, which throws exactly when [String(v)] does; the date is
    kept as the value it was built from. *)
Definition new_Date (v : value) : outcome value :=
  let? _ := to_string v in
  Ok v.

End JS.

(* ===================================================================== *)
(** * The collaborators and the monad of the handlers *)
(* ===================================================================== *)

Module Runtime.
Import JS.
Local Open Scope list_scope.

(** A document of the [User] collection. *)
Record user : Type :=
  { u_id : value; u_username : value; u_email : value; u_role : value }.

Definition store : Type := list user.

(** The four arguments of [sendEmail]. *)
Record email : Type :=
  { to : value; subject : string; text : string; html : string }.

(** A delivery of the broker: its body and its delivery tag. *)
Record message : Type := { content : string; deliveryTag : nat }.

(** Every call that leaves the module. *)
Inductive effect : Type :=
| StoreFindOne (id : value)
| StoreFindOneAndUpdate (id username email role : value)
| SendEmail (m : email)
| ChannelAck (tag : nat)
| ChannelNack (tag : nat) (allUpTo requeue : bool)
| ConsoleLog (line : string) (args : list value)
| ConsoleError (label message : string).

(** What the module cannot decide: the decoder of the language, whether a
    call to the store or to the mail provider fails, and the date format of
    the host's locale. *)
Record env : Type :=
  { JSON_parse : string -> outcome value;
    findOne_fails : value -> option error;
    findOneAndUpdate_fails : value -> option error;
    sendEmail_fails : email -> option error;
    toLocaleDateString : value -> string }.

(** ** The document store *)

(** The [User] model ([models/user]) and its driver are not part of the
    source file; what the handlers need of them is taken from the
    interface of the specification. *)

(** Modelled from the spec: the match of a record against the filter
    [{ id }] of [findByExternalId] and [upsertByExternalId], which the
    absent [models/user] decides; the record is keyed by its external
    [id]. *)
Definition has_id (id : value) (u : user) : bool := value_eqb (u_id u) id.

(** Modelled from the spec: [findByExternalId(id) -> User | NotFound] of
    the absent document store: the record of that id, if there is one. *)
Definition store_find (id : value) (s : store) : option user :=
  find (has_id id) s.

(** Modelled from the spec: the update of the absent document store, which
    overwrites [username], [email] and [role] and leaves the other fields
    of the record as they are. *)
Definition set_fields (username email role : value) (u : user) : user :=
  {| u_id := u_id u; u_username := username; u_email := email;
     u_role := role |}.

(** Modelled from the spec: [upsertByExternalId(id, fields)] of the absent
    document store: insert if no record has the id, else update in place
    the record that has it. *)
Fixpoint store_upsert (id username email role : value) (s : store) : store :=
  match s with
  | [] => [ {| u_id := id; u_username := username; u_email := email;
               u_role := role |} ]
  | u :: rest =>
      if has_id id u then set_fields username email role u :: rest
      else u :: store_upsert id username email role rest
  end.

(** The number of records of an id. *)
Definition records_of (id : value) (s : store) : nat :=
  List.length (filter (has_id id) s).

(** ** The monad: store in, outcome, store and trace out *)

Definition M (A : Type) : Type := store -> outcome A * store * list effect.

Definition ret {A : Type} (a : A) : M A := fun s => (Ok a, s, []).

Definition throw {A : Type} (e : error) : M A := fun s => (Throw e, s, []).

Definition lift {A : Type} (o : outcome A) : M A := fun s => (o, s, []).

Definition emit (e : effect) : M unit := fun s => (Ok tt, s, [e]).

Definition bind {A B : Type} (m : M A) (k : A -> M B) : M B :=
  fun s =>
    match m s with
    | (Ok a, s1, t1) =>
        match k a s1 with
        | (r, s2, t2) => (r, s2, t1 ++ t2)
        end
    | (Throw e, s1, t1) => (Throw e, s1, t1)
    end.

(** [try { m } catch (error) { h error }] *)
Definition try_catch {A : Type} (m : M A) (h : error -> M A) : M A :=
  fun s =>
    match m s with
    | (Ok a, s1, t1) => (Ok a, s1, t1)
    | (Throw e, s1, t1) =>
        match h e s1 with
        | (r, s2, t2) => (r, s2, t1 ++ t2)
        end
    end.

Definition result_of {A : Type} (r : outcome A * store * list effect)
  : outcome A := fst (fst r).
Definition store_of {A : Type} (r : outcome A * store * list effect)
  : store := snd (fst r).
Definition trace_of {A : Type} (r : outcome A * store * list effect)
  : list effect := snd r.

(** ** The external calls *)

Definition console_log (line : string) (args : list value) : M unit :=
  emit (ConsoleLog line args).

Definition console_error (label message : string) : M unit :=
  emit (ConsoleError label message).

(** [sendEmail(to, subject, text, html)] of [config/emailProvider]: the
    request is made, and the provider accepts or refuses it. *)
Definition sendEmail (E : env) (to : value) (subject text html : string)
  : M unit :=
  let m := {| to := to; subject := subject; text := text; html := html |} in
  fun s =>
    (match sendEmail_fails E m with Some e => Throw e | None => Ok tt end,
     s, [SendEmail m]).

(** The answer of the store to a read that has been issued and is not yet
    awaited. *)
Definition pending : Type := outcome (option user).

Definition store_answer (E : env) (s : store) (id : value) : pending :=
  match findOne_fails E id with
  | Some e => Throw e
  | None => Ok (store_find id s)
  end.

(** [User.findOne({ id }).exec()]: the read is issued at the call. *)
Definition User_findOne (E : env) (id : value) : M pending :=
  fun s => (Ok (store_answer E s id), s, [StoreFindOne id]).

(** [User.findOneAndUpdate({ id }, update, { upsert: true })] *)
Definition User_findOneAndUpdate (E : env) (id username email role : value)
  : M unit :=
  fun s =>
    match findOneAndUpdate_fails E id with
    | Some e => (Throw e, s, [StoreFindOneAndUpdate id username email role])
    | None =>
        (Ok tt, store_upsert id username email role s,
         [StoreFindOneAndUpdate id username email role])
    end.

Definition channel_ack (msg : message) : M unit :=
  emit (ChannelAck (deliveryTag msg)).

Definition channel_nack (msg : message) (allUpTo requeue : bool) : M unit :=
  emit (ChannelNack (deliveryTag msg) allUpTo requeue).

End Runtime.

Notation "x <- m ;; k" := (Runtime.bind m (fun x => k))
  (at level 61, m at next level, right associativity) : js_scope.
Notation "m ;; k" := (Runtime.bind m (fun _ => k))
  (at level 61, right associativity) : js_scope.
Local Open Scope js_scope.

(* ===================================================================== *)
(** * The text of the e-mails *)
(* ===================================================================== *)

Module Templates.
Local Open Scope string_scope.

Definition nl : string := String (ascii_of_nat 10) EmptyString.
Definition dq : string := String (ascii_of_nat 34) EmptyString.

(** The bodies are the template literals of the source, line by line;
    each parameter stands for one [${...}]. *)

Definition productCreatedBody (username title description price quantity formattedDate : string) : string :=
  nl
  ++ "          <p>Hi " ++ username ++ ",</p>" ++ nl
  ++ "          <p>Your new product has been created successfully:</p>" ++ nl
  ++ "          <ul>" ++ nl
  ++ "            <li><b>Title:</b> " ++ title ++ "</li>" ++ nl
  ++ "            <li><b>Description:</b> " ++ description ++ "</li>" ++ nl
  ++ "            <li><b>Price:</b> $" ++ price ++ "</li>" ++ nl
  ++ "            <li><b>Quantity:</b> " ++ quantity ++ "</li>" ++ nl
  ++ "          </ul>" ++ nl
  ++ "          <p>Created on: " ++ formattedDate ++ "</p>" ++ nl
  ++ "        ".

Definition productUpdatedBody (username title description category price quantity : string) : string :=
  nl
  ++ "          <p>Hi " ++ username ++ ",</p>" ++ nl
  ++ "          <p>Your product has been updated successfully with the following details:</p>" ++ nl
  ++ "          <ul>" ++ nl
  ++ "            <li><b>Title:</b> " ++ title ++ "</li>" ++ nl
  ++ "            <li><b>Description:</b> " ++ description ++ "</li>" ++ nl
  ++ "            <li><b>Category:</b> " ++ category ++ "</li>" ++ nl
  ++ "            <li><b>Price:</b> $" ++ price ++ "</li>" ++ nl
  ++ "            <li><b>Current Quantity:</b> " ++ quantity ++ "</li>" ++ nl
  ++ "          </ul>" ++ nl
  ++ "          <p>If you didn’t request this update, please contact our support team immediately.</p>" ++ nl
  ++ "          <p>Thank you for keeping your products up to date!</p>" ++ nl
  ++ "        ".

Definition productDeletedBody (username title description category price quantity : string) : string :=
  nl
  ++ "          <p>Hi " ++ username ++ ",</p>" ++ nl
  ++ "          <p>We have processed your request to delete the following product:</p>" ++ nl
  ++ "          <ul>" ++ nl
  ++ "            <li><b>Title:</b> " ++ title ++ "</li>" ++ nl
  ++ "            <li><b>Description:</b> " ++ description ++ "</li>" ++ nl
  ++ "            <li><b>Category:</b> " ++ category ++ "</li>" ++ nl
  ++ "            <li><b>Price:</b> $" ++ price ++ "</li>" ++ nl
  ++ "            <li><b>Remaining Quantity Before Deletion:</b> " ++ quantity ++ "</li>" ++ nl
  ++ "          </ul>" ++ nl
  ++ "          <p>Your product has been successfully removed from our platform.</p>" ++ nl
  ++ "          <p>If you deleted this by mistake or need assistance, feel free to contact us at <a href=" ++ dq ++ "mailto:support@example.com" ++ dq ++ ">support@example.com</a>.</p>" ++ nl
  ++ "          <p>Warm regards,</p>" ++ nl
  ++ "          <p><b>Your Product Team</b></p>" ++ nl
  ++ "        ".

Definition sellerMessagePlaced (username title quantity stock : string) : string :=
  nl
  ++ "              <p style=" ++ dq ++ "font-family: Arial, sans-serif; color: #333;" ++ dq ++ ">" ++ nl
  ++ "                Hi <b>" ++ username ++ "</b>," ++ nl
  ++ "              </p>" ++ nl
  ++ "              <p>A new order has been placed for your product:</p>" ++ nl
  ++ "              <ul style=" ++ dq ++ "list-style-type: none; padding: 0;" ++ dq ++ ">" ++ nl
  ++ "                <li><b>Product:</b> " ++ title ++ "</li>" ++ nl
  ++ "                <li><b>Quantity Ordered:</b> " ++ quantity ++ "</li>" ++ nl
  ++ "                <li><b>Remaining Stock:</b> " ++ stock ++ "</li>" ++ nl
  ++ "              </ul>" ++ nl
  ++ "              <p>Please prepare the order promptly. Thank you!</p>" ++ nl
  ++ "            ".

Definition sellerMessageUpdated (username title quantity stock : string) : string :=
  nl
  ++ "              <p style=" ++ dq ++ "font-family: Arial, sans-serif; color: #333;" ++ dq ++ ">" ++ nl
  ++ "                Hi <b>" ++ username ++ "</b>," ++ nl
  ++ "              </p>" ++ nl
  ++ "              <p>The order for your product has been updated:</p>" ++ nl
  ++ "              <ul style=" ++ dq ++ "list-style-type: none; padding: 0;" ++ dq ++ ">" ++ nl
  ++ "                <li><b>Product:</b> " ++ title ++ "</li>" ++ nl
  ++ "                <li><b>Updated Quantity:</b> " ++ quantity ++ "</li>" ++ nl
  ++ "                <li><b>Remaining Stock:</b> " ++ stock ++ "</li>" ++ nl
  ++ "              </ul>" ++ nl
  ++ "              <p>Keep track of your stock levels and fulfill this updated order. Thank you!</p>" ++ nl
  ++ "            ".

Definition sellerMessageDeleted (username title quantity stock : string) : string :=
  nl
  ++ "              <p style=" ++ dq ++ "font-family: Arial, sans-serif; color: #333;" ++ dq ++ ">" ++ nl
  ++ "                Hi <b>" ++ username ++ "</b>," ++ nl
  ++ "              </p>" ++ nl
  ++ "              <p>An order for your product has been cancelled:</p>" ++ nl
  ++ "              <ul style=" ++ dq ++ "list-style-type: none; padding: 0;" ++ dq ++ ">" ++ nl
  ++ "                <li><b>Product:</b> " ++ title ++ "</li>" ++ nl
  ++ "                <li><b>Cancelled Quantity:</b> " ++ quantity ++ "</li>" ++ nl
  ++ "                <li><b>Remaining Stock:</b> " ++ stock ++ "</li>" ++ nl
  ++ "              </ul>" ++ nl
  ++ "              <p>We regret the cancellation but trust you'll continue providing great service!</p>" ++ nl
  ++ "            ".

Definition userMessagePlaced (username productList : string) : string :=
  nl
  ++ "            <p style=" ++ dq ++ "font-family: Arial, sans-serif; color: #333;" ++ dq ++ ">" ++ nl
  ++ "              Hi <b>" ++ username ++ "</b>," ++ nl
  ++ "            </p>" ++ nl
  ++ "            <p>Your order has been successfully placed:</p>" ++ nl
  ++ "            <ul>" ++ productList ++ "</ul>" ++ nl
  ++ "            <p>Thank you for shopping with us!</p>" ++ nl
  ++ "          ".

Definition userMessageUpdated (username productList : string) : string :=
  nl
  ++ "            <p style=" ++ dq ++ "font-family: Arial, sans-serif; color: #333;" ++ dq ++ ">" ++ nl
  ++ "              Hi <b>" ++ username ++ "</b>," ++ nl
  ++ "            </p>" ++ nl
  ++ "            <p>Your order has been updated:</p>" ++ nl
  ++ "            <ul>" ++ productList ++ "</ul>" ++ nl
  ++ "            <p>Thank you for your continued support!</p>" ++ nl
  ++ "          ".

Definition userMessageDeleted (username productList : string) : string :=
  nl
  ++ "            <p style=" ++ dq ++ "font-family: Arial, sans-serif; color: #333;" ++ dq ++ ">" ++ nl
  ++ "              Hi <b>" ++ username ++ "</b>," ++ nl
  ++ "            </p>" ++ nl
  ++ "            <p>Your order has been cancelled:</p>" ++ nl
  ++ "            <ul>" ++ productList ++ "</ul>" ++ nl
  ++ "            <p>We’re sorry for any inconvenience caused.</p>" ++ nl
  ++ "          ".

(** The subject and the plain text of each e-mail. *)

Definition productCreatedText (title : string) : string :=
  "Your product " ++ dq ++ title ++ dq ++ " has been successfully created!".

Definition productUpdatedText (title : string) : string :=
  "Your product " ++ dq ++ title ++ dq ++ " has been successfully updated!".

Definition productDeletedText (title : string) : string :=
  "Your product " ++ dq ++ title ++ dq ++ " has been successfully deleted.".

End Templates.

(* ===================================================================== *)
(** * events/consumer.js *)
(* ===================================================================== *)

Module Consumer.
Import JS Runtime Templates.
Local Open Scope string_scope.

(** ** syncUserData *)

Definition syncUserData (E : env) (event : value) : M unit :=
  try_catch
    (ev <- lift (destructure event "event" "id") ;;
     let id := field ev "id" in
     let update_username := field ev "username" in
     let update_email := field ev "email" in
     let update_role := field ev "role" in
     User_findOneAndUpdate E id update_username update_email update_role ;;
     synced <- lift (to_string id) ;;
     console_log ("User data synced: " ++ synced) [])
    (fun error => console_error "Error syncing user data:" (err_message error)).

(** ** consumeQueue *)

(** The callback that [consumeQueue] registers for a queue, run on one
    delivery.  Its outcome is that of the promise the callback returns:
    nothing awaits it, so a [Throw] here is a rejection that no code
    handles. *)
Definition consumeQueue (E : env) (queue : string)
    (handler : value -> M unit) (msg : message) : M unit :=
  event <- lift (JSON_parse E (content msg)) ;;
  console_log ("Received event from " ++ queue ++ ":") [event] ;;
  try_catch
    (handler event ;;
     channel_ack msg)
    (fun error =>
       console_error ("Error handling event from " ++ queue ++ ":")
                     (err_message error) ;;
       channel_nack msg false false).

(** ** fetchUserDetails *)

(** An [async] function runs up to its first [await] when it is called:
    [fetchUserDetails_call] is that part (the read is issued), and
    [fetchUserDetails_resume] the rest of the body, run when the store has
    answered.  It never throws: a failed or empty read is logged and
    yields [null]. *)
Definition fetchUserDetails_call (E : env) (userId : value) : M pending :=
  User_findOne E userId.

Definition fetchUserDetails_resume (userId : value) (answer : pending)
  : M (option user) :=
  try_catch
    (user <- lift answer ;;
     match user with
     | None =>
         wanted <- lift (to_string userId) ;;
         throw (Err "Error" ("User with ID " ++ wanted ++ " not found"))
     | Some u => ret (Some u)
     end)
    (fun error =>
       console_error "Failed to fetch user details:" (err_message error) ;;
       ret None).

(** [await fetchUserDetails(userId)] *)
Definition fetchUserDetails (E : env) (userId : value) : M (option user) :=
  answer <- fetchUserDetails_call E userId ;;
  fetchUserDetails_resume userId answer.

(** [event.data.k] *)
Definition data_field (event : value) (k : string) : outcome value :=
  let? data := get_prop event "data" in
  get_prop data k.

(** ** handleAuthEvents *)

Definition handleAuthEvents (E : env) (event : value) : M unit :=
  try_catch
    (console_log "Auth event received:" [event] ;;
     ty <- lift (get_prop event "type") ;;
     if strict_eq ty (VStr "user_created") then
       userId <- lift (data_field event "userId") ;;
       userDetails <- fetchUserDetails E userId ;;
       match userDetails with
       | Some u =>
           sendEmail E (u_email u)
             "Welcome to Our Service"
             "Your account has been successfully created."
             "<p>Your account has been created, welcome to our service!</p>"
       | None => ret tt
       end
     else ret tt)
    (fun error => console_error "Error handling auth event:" (err_message error)).

(** ** handleProductEvents *)

(** [seller.id] for the [seller] of the payload. *)
Definition seller_id (data : value) : outcome value :=
  get_prop (field data "seller") "id".

(** [${k}] for a property [k] taken from the payload. *)
Definition interpolate (data : value) (k : string) : outcome string :=
  to_string (field data k).

(** The template literals are evaluated from left to right, each [${...}]
    converted as it is reached, and the arguments of [sendEmail] in
    order. *)
Definition productCreated (E : env) (event : value) : M unit :=
  payload <- lift (get_prop event "data") ;;
  data <- lift (destructure payload "event.data" "title") ;;
  sellerId <- lift (seller_id data) ;;
  sellerDetails <- fetchUserDetails E sellerId ;;
  match sellerDetails with
  | Some u =>
      date <- lift (new_Date (field data "createdAt")) ;;
      let formattedDate := toLocaleDateString E date in
      messageBody <- lift
        (let? username := to_string (u_username u) in
         let? title := interpolate data "title" in
         let? description := interpolate data "description" in
         let? price := interpolate data "price" in
         let? quantity := interpolate data "quantity" in
         Ok (productCreatedBody username title description price quantity
               formattedDate)) ;;
      title <- lift (interpolate data "title") ;;
      sendEmail E (u_email u) "Product Created Successfully"
        (productCreatedText title) messageBody
  | None => ret tt
  end.

Definition productUpdated (E : env) (event : value) : M unit :=
  payload <- lift (get_prop event "data") ;;
  data <- lift (destructure payload "event.data" "title") ;;
  sellerId <- lift (seller_id data) ;;
  sellerDetails <- fetchUserDetails E sellerId ;;
  match sellerDetails with
  | Some u =>
      messageBody <- lift
        (let? username := to_string (u_username u) in
         let? title := interpolate data "title" in
         let? description := interpolate data "description" in
         let? category := interpolate data "category" in
         let? price := interpolate data "price" in
         let? quantity := interpolate data "quantity" in
         Ok (productUpdatedBody username title description category price
               quantity)) ;;
      title <- lift (interpolate data "title") ;;
      sendEmail E (u_email u) "Product Updated Successfully"
        (productUpdatedText title) messageBody
  | None => ret tt
  end.

Definition productDeleted (E : env) (event : value) : M unit :=
  payload <- lift (get_prop event "data") ;;
  data <- lift (destructure payload "event.data" "title") ;;
  sellerId <- lift (seller_id data) ;;
  sellerDetails <- fetchUserDetails E sellerId ;;
  match sellerDetails with
  | Some u =>
      messageBody <- lift
        (let? username := to_string (u_username u) in
         let? title := interpolate data "title" in
         let? description := interpolate data "description" in
         let? category := interpolate data "category" in
         let? price := interpolate data "price" in
         let? quantity := interpolate data "quantity" in
         Ok (productDeletedBody username title description category price
               quantity)) ;;
      title <- lift (interpolate data "title") ;;
      sendEmail E (u_email u) "Product Deleted Successfully"
        (productDeletedText title) messageBody
  | None => ret tt
  end.

(** [if (event.type === t) { block }] *)
Definition when_type (event : value) (t : string) (block : M unit) : M unit :=
  ty <- lift (get_prop event "type") ;;
  if strict_eq ty (VStr t) then block else ret tt.

(** Three [if] statements in a row, not a chain of [else if]. *)
Definition handleProductEvents (E : env) (event : value) : M unit :=
  try_catch
    (when_type event "product_created" (productCreated E event) ;;
     when_type event "product_updated" (productUpdated E event) ;;
     when_type event "product_deleted" (productDeleted E event))
    (fun error =>
       console_error "Error handling product event:" (err_message error)).

(** ** handleOrderEvents *)

(** The three cases of the [switch] have one shape; they differ in the
    text of the e-mails and in how the remaining stock is read. *)
Inductive order_kind : Type := Placed | Updated | Deleted.

(** [switch (event.type)], which compares with [===]. *)
Definition order_kind_of (ty : value) : option order_kind :=
  match ty with
  | VStr t =>
      if String.eqb t "order_placed" then Some Placed
      else if String.eqb t "order_updated" then Some Updated
      else if String.eqb t "order_deleted" then Some Deleted
      else None
  | _ => None
  end.

(** [event.data.k[index]] *)
Definition line_field (event : value) (k : string) (index : nat)
  : outcome value :=
  let? xs := data_field event k in
  get_index xs index.

(** [xs.find(pred)]: the first element that satisfies [pred], or
    [undefined]; [pred] is not run past that element. *)
Fixpoint array_find (pred : value -> outcome bool) (xs : list value)
  : outcome value :=
  match xs with
  | [] => Ok VUndef
  | x :: rest =>
      let? b := pred x in
      if b then Ok x else array_find pred rest
  end.

(** [(product) => product.productId === event.data.productIds[index]] *)
Definition same_product (event : value) (index : nat) (product : value)
  : outcome bool :=
  let? productId := get_prop product "productId" in
  let? wanted := line_field event "productIds" index in
  Ok (strict_eq productId wanted).

(** The [const remainingQuantity = ...] of each case. *)
Definition remainingQuantity_of (kind : order_kind) (event : value)
    (index : nat) : outcome value :=
  match kind with
  | Placed | Updated =>
      let? rqs := data_field event "remainingQuantities" in
      let? products := as_array rqs "event.data.remainingQuantities" "find" in
      let? found := array_find (same_product event index) products in
      get_prop_opt found "remainingQuantity"
  | Deleted => line_field event "remainingQuantities" index
  end.

Definition sellerMessage (kind : order_kind)
  : string -> string -> string -> string -> string :=
  match kind with
  | Placed => sellerMessagePlaced
  | Updated => sellerMessageUpdated
  | Deleted => sellerMessageDeleted
  end.

Definition sellerSubject (kind : order_kind) : string :=
  match kind with
  | Placed => "New Order Received"
  | Updated => "Order Updated"
  | Deleted => "Order Cancelled"
  end.

Definition sellerText (kind : order_kind) (title : string) : string :=
  match kind with
  | Placed => "A new order has been placed for " ++ dq ++ title ++ dq
  | Updated => "The order for " ++ dq ++ title ++ dq ++ " has been updated"
  | Deleted =>
      "The order for " ++ dq ++ title ++ dq ++ " has been cancelled."
  end.

(** The template literal of a seller callback, then the arguments of its
    [sendEmail]; each [${...}] is read and converted as it is reached. *)
Definition sellerEmail (kind : order_kind) (event : value) (index : nat)
    (sellerDetails : user) (remainingQuantity : value) : outcome email :=
  let? username := to_string (u_username sellerDetails) in
  let? title := line_field event "titles" index in
  let? title := to_string title in
  let? quantity := line_field event "quantities" index in
  let? quantity := to_string quantity in
  let? stock := to_string (or_else remainingQuantity (VStr "Unknown")) in
  let sellerMessage := sellerMessage kind username title quantity stock in
  let? about := line_field event "titles" index in
  let? about := to_string about in
  Ok {| to := u_email sellerDetails;
        subject := sellerSubject kind;
        text := sellerText kind about;
        html := sellerMessage |}.

(** The body of the callback of [sellerIds.map] after its first [await]. *)
Definition seller_resume (E : env) (kind : order_kind) (event : value)
    (index : nat) (sellerId : value) (answer : pending) : M unit :=
  sellerDetails <- fetchUserDetails_resume sellerId answer ;;
  remainingQuantity <- lift (remainingQuantity_of kind event index) ;;
  match sellerDetails with
  | Some u =>
      m <- lift (sellerEmail kind event index u remainingQuantity) ;;
      sendEmail E (to m) (subject m) (text m) (html m)
  | None => ret tt
  end.

(** [sellerIds.map(async (sellerId, index) => ...)]: each callback runs to
    its first [await], which issues the read of its seller. *)
Fixpoint seller_calls (E : env) (sellerIds : list value) : M (list pending) :=
  match sellerIds with
  | [] => ret []
  | sellerId :: rest =>
      answer <- fetchUserDetails_call E sellerId ;;
      answers <- seller_calls E rest ;;
      ret (answer :: answers)
  end.

(** A promise runs to its end whatever the others do; [settle] keeps how
    it ended. *)
Definition settle {A : Type} (m : M A) : M (outcome A) :=
  fun s => match m s with (r, s1, t1) => (Ok r, s1, t1) end.

(** The callbacks resume as the store answers, here in the order of the
    reads, and each is run to its end before the next resumes.  None is
    cancelled when another one rejects.  The program fixes neither the
    order in which the callbacks resume nor how their steps interleave:
    the properties of the e-mails of an order are stated up to that
    order. *)
Fixpoint seller_promises (E : env) (kind : order_kind) (event : value)
    (index : nat) (sellerIds : list value) (answers : list pending)
  : M (list (outcome unit)) :=
  match sellerIds, answers with
  | sellerId :: rest, answer :: answers' =>
      r <- settle (seller_resume E kind event index sellerId answer) ;;
      rs <- seller_promises E kind event (S index) rest answers' ;;
      ret (r :: rs)
  | _, _ => ret []
  end.

(** [Promise.all]: fulfilled when all are, rejected as soon as one is,
    with the error of the first promise to reject; in the order in which
    the callbacks are run here, that is the first one of the array. *)
Fixpoint Promise_all (promises : list (outcome unit)) : outcome unit :=
  match promises with
  | [] => Ok tt
  | Ok _ :: rest => Promise_all rest
  | Throw e :: _ => Throw e
  end.

Definition listItem (kind : order_kind) (title quantity : string) : string :=
  match kind with
  | Placed => "<li>" ++ title ++ " (Quantity: " ++ quantity ++ ")</li>"
  | Updated =>
      "<li>" ++ title ++ " (Updated Quantity: " ++ quantity ++ ")</li>"
  | Deleted =>
      "<li>" ++ title ++ " (Cancelled Quantity: " ++ quantity ++ ")</li>"
  end.

(** [titles.map((title, index) => `<li>...</li>`)], from [index] on. *)
Fixpoint listItems (kind : order_kind) (event : value) (index : nat)
    (titles : list value) : outcome (list string) :=
  match titles with
  | [] => Ok []
  | title :: rest =>
      let? title := to_string title in
      let? quantity := line_field event "quantities" index in
      let? quantity := to_string quantity in
      let? items := listItems kind event (S index) rest in
      Ok (listItem kind title quantity :: items)
  end.

Definition userMessage (kind : order_kind) : string -> string -> string :=
  match kind with
  | Placed => userMessagePlaced
  | Updated => userMessageUpdated
  | Deleted => userMessageDeleted
  end.

Definition userSubject (kind : order_kind) : string :=
  match kind with
  | Placed => "Order Placed"
  | Updated => "Order Updated"
  | Deleted => "Order Cancelled"
  end.

Definition userText (kind : order_kind) (titles : string) : string :=
  match kind with
  | Placed =>
      "Your order for " ++ dq ++ titles ++ dq
        ++ " has been placed successfully."
  | Updated => "Your order for " ++ dq ++ titles ++ dq ++ " has been updated."
  | Deleted =>
      "Your order for " ++ dq ++ titles ++ dq ++ " has been cancelled."
  end.

(** The list of the line items, the template literal of the buyer's
    e-mail, then the arguments of its [sendEmail]. *)
Definition userEmail (kind : order_kind) (event : value) (userDetails : user)
  : outcome email :=
  let? titles := data_field event "titles" in
  let? mapped := as_array titles "event.data.titles" "map" in
  let? items := listItems kind event 0 mapped in
  let productList := String.concat "" items in
  let? username := to_string (u_username userDetails) in
  let userMessage := userMessage kind username productList in
  let? titles := data_field event "titles" in
  let? joined := as_array titles "event.data.titles" "join" in
  let? joined := array_join ", " joined in
  Ok {| to := u_email userDetails;
        subject := userSubject kind;
        text := userText kind joined;
        html := userMessage |}.

(** The fan-out of one [case] of the [switch], up to the join.  The
    buyer's read is issued first, then the sellers' reads; the store then
    answers in that order and each callback runs to its end.  The result
    is what [await userDetailsPromise] will yield and how each of the
    [sellerPromises] ended.  If [sellerIds.map] itself throws, the buyer's
    read is pending and still settles.

    Where promises overlap, the trace lists their calls in this one order;
    which calls are made, and with which arguments, does not depend on
    it. *)
Definition orderFanOut (E : env) (kind : order_kind) (event : value)
  : M (option user * list (outcome unit)) :=
  userId <- lift (data_field event "userId") ;;
  userDetailsPromise <- fetchUserDetails_call E userId ;;
  match (let? ids := data_field event "sellerIds" in
         as_array ids "event.data.sellerIds" "map") with
  | Throw e =>
      fetchUserDetails_resume userId userDetailsPromise ;;
      throw e
  | Ok sellerIds =>
      answers <- seller_calls E sellerIds ;;
      userDetails <- fetchUserDetails_resume userId userDetailsPromise ;;
      sellerPromises <- seller_promises E kind event 0 sellerIds answers ;;
      ret (userDetails, sellerPromises)
  end.

(** One [case] of the [switch]: the fan-out, the join, then the buyer. *)
Definition orderCase (E : env) (kind : order_kind) (event : value) : M unit :=
  fanOut <- orderFanOut E kind event ;;
  lift (Promise_all (snd fanOut)) ;;
  match fst fanOut with
  | Some u =>
      m <- lift (userEmail kind event u) ;;
      sendEmail E (to m) (subject m) (text m) (html m)
  | None => ret tt
  end.

Definition handleOrderEvents (E : env) (event : value) : M unit :=
  try_catch
    (ty <- lift (get_prop event "type") ;;
     match order_kind_of ty with
     | Some kind => orderCase E kind event
     | None =>
         unhandled <- lift (to_string ty) ;;
         console_log ("Unhandled event type: " ++ unhandled) []
     end)
    (fun error =>
       console_error "Error handling order event:" (err_message error)).

(** ** initConsumer *)

Definition queues : list string :=
  [ "product_events_for_notifications";
    "order_events_for_notifications";
    "auth_events";
    "user_data_sync" ].

(** The calls [consumeQueue(queue, handler)] that [initConsumer] makes. *)
Definition initConsumer (E : env) : list (string * (value -> M unit)) :=
  [ ("product_events_for_notifications", handleProductEvents E);
    ("order_events_for_notifications", handleOrderEvents E);
    ("auth_events", handleAuthEvents E);
    ("user_data_sync", syncUserData E) ].

End Consumer.

(* ===================================================================== *)
(** * What is observed of a run *)
(* ===================================================================== *)

Import JS Runtime Templates Consumer.
Local Open Scope list_scope.

Definition is_channel (e : effect) : bool :=
  match e with
  | ChannelAck _ | ChannelNack _ _ _ => true
  | _ => false
  end.

(** An e-mail send or a store call. *)
Definition is_action (e : effect) : bool :=
  match e with
  | SendEmail _ | StoreFindOne _ | StoreFindOneAndUpdate _ _ _ _ => true
  | _ => false
  end.

Definition is_ack (tag : nat) (e : effect) : bool :=
  match e with
  | ChannelAck t => Nat.eqb t tag
  | _ => false
  end.

Definition is_nack (tag : nat) (e : effect) : bool :=
  match e with
  | ChannelNack t _ _ => Nat.eqb t tag
  | _ => false
  end.

(** The message was acknowledged: [channel.ack(msg)] was called. *)
Definition acked (msg : message) (t : list effect) : bool :=
  existsb (is_ack (deliveryTag msg)) t.

(** The message was rejected: [channel.nack(msg, ...)] was called. *)
Definition rejected (msg : message) (t : list effect) : bool :=
  existsb (is_nack (deliveryTag msg)) t.

(** The e-mails handed to the provider, in the order of the trace. *)
Fixpoint sent (t : list effect) : list email :=
  match t with
  | [] => []
  | SendEmail m :: rest => m :: sent rest
  | _ :: rest => sent rest
  end.

(** No e-mail send and no store call. *)
Definition no_action (t : list effect) : bool :=
  forallb (fun e => negb (is_action e)) t.

(** Neither [channel.ack] nor [channel.nack]. *)
Definition quiet (e : effect) : bool := negb (is_channel e).

(** The line that [consumeQueue] logs for each decoded message. *)
Definition received (queue : string) (event : value) : effect :=
  ConsoleLog ("Received event from " ++ queue ++ ":")%string [event].

(** The [type] tags that the handler of each queue acts on; the handler of
    [user_data_sync] does not look at [type]. *)
Definition recognized_types : list (string * list string) :=
  [ ("product_events_for_notifications",
     ["product_created"; "product_updated"; "product_deleted"]);
    ("order_events_for_notifications",
     ["order_placed"; "order_updated"; "order_deleted"]);
    ("auth_events", ["user_created"]) ].

(** The stock shown for a product, as the specification words it: the
    [remainingQuantity] of the first record whose [productId] is that of
    the product, and nothing when no record matches. *)
Definition remaining_stock (products : list value) (productId : value)
  : value :=
  match find (fun product => strict_eq (field product "productId") productId)
             products with
  | Some product => field product "remainingQuantity"
  | None => VUndef
  end.

(** A [{productId, remainingQuantity}] record is an object. *)
Definition is_record (v : value) : bool :=
  match v with VObj _ => true | _ => false end.

(** [undefined] or [null]. *)
Definition nullish (v : value) : bool :=
  match v with
  | VUndef | VNull => true
  | _ => false
  end.

(** A value that a template literal can show: its conversion to a string
    does not throw. *)
Definition printable (v : value) : bool :=
  match to_string v with
  | Ok _ => true
  | Throw _ => false
  end.

(** The text that a template literal shows for a printable value. *)
Definition shown (v : value) : string :=
  match to_string v with
  | Ok text => text
  | Throw _ => ""%string
  end.

(** A record of the store whose [username] a template literal can show. *)
Definition named (u : user) : bool := printable (u_username u).

(** A stock record that a template literal can show, itself and its
    [remainingQuantity]. *)
Definition shows_stock (product : value) : bool :=
  printable product && printable (field product "remainingQuantity").

(** The text shown as remaining stock: that of the value, and "Unknown"
    when the value is absent, zero or empty. *)
Definition stock_text (remainingQuantity : value) : string :=
  shown (or_else remainingQuantity (VStr "Unknown")).

(** The e-mail to the seller of a line item, as the source words it for
    each type of order event. *)
Definition sellerMail (kind : order_kind) (sellerDetails : user)
    (title quantity remainingQuantity : value) : email :=
  let username := shown (u_username sellerDetails) in
  let stock := stock_text remainingQuantity in
  match kind with
  | Placed =>
      {| to := u_email sellerDetails;
         subject := "New Order Received";
         text := ("A new order has been placed for " ++ dq ++ shown title
                  ++ dq)%string;
         html := sellerMessagePlaced username (shown title) (shown quantity)
                   stock |}
  | Updated =>
      {| to := u_email sellerDetails;
         subject := "Order Updated";
         text := ("The order for " ++ dq ++ shown title ++ dq
                  ++ " has been updated")%string;
         html := sellerMessageUpdated username (shown title) (shown quantity)
                   stock |}
  | Deleted =>
      {| to := u_email sellerDetails;
         subject := "Order Cancelled";
         text := ("The order for " ++ dq ++ shown title ++ dq
                  ++ " has been cancelled.")%string;
         html := sellerMessageDeleted username (shown title) (shown quantity)
                   stock |}
  end.

(** The [<li>] of a line item in the buyer's e-mail. *)
Definition order_item (kind : order_kind) (title quantity : value) : string :=
  match kind with
  | Placed =>
      ("<li>" ++ shown title ++ " (Quantity: " ++ shown quantity
       ++ ")</li>")%string
  | Updated =>
      ("<li>" ++ shown title ++ " (Updated Quantity: " ++ shown quantity
       ++ ")</li>")%string
  | Deleted =>
      ("<li>" ++ shown title ++ " (Cancelled Quantity: " ++ shown quantity
       ++ ")</li>")%string
  end.

(** The [<li>] of the buyer's e-mail: one per title, with the quantity at
    the same index. *)
Fixpoint order_items (kind : order_kind) (quantities : list value)
    (index : nat) (titles : list value) : list string :=
  match titles with
  | [] => []
  | title :: rest =>
      order_item kind title (nth index quantities VUndef)
        :: order_items kind quantities (S index) rest
  end.

(** The titles as the subject line of the buyer's e-mail lists them:
    separated by a comma and a space, an absent title left empty. *)
Definition listed_titles (titles : list value) : string :=
  String.concat ", "
    (map (fun title => if nullish title then ""%string else shown title)
       titles).

(** The e-mail to the buyer, as the source words it for each type of
    order event: one [<li>] per line item. *)
Definition userMail (kind : order_kind) (userDetails : user)
    (titles quantities : list value) : email :=
  let username := shown (u_username userDetails) in
  let productList := String.concat "" (order_items kind quantities 0 titles) in
  match kind with
  | Placed =>
      {| to := u_email userDetails;
         subject := "Order Placed";
         text := ("Your order for " ++ dq ++ listed_titles titles ++ dq
                  ++ " has been placed successfully.")%string;
         html := userMessagePlaced username productList |}
  | Updated =>
      {| to := u_email userDetails;
         subject := "Order Updated";
         text := ("Your order for " ++ dq ++ listed_titles titles ++ dq
                  ++ " has been updated.")%string;
         html := userMessageUpdated username productList |}
  | Deleted =>
      {| to := u_email userDetails;
         subject := "Order Cancelled";
         text := ("Your order for " ++ dq ++ listed_titles titles ++ dq
                  ++ " has been cancelled.")%string;
         html := userMessageDeleted username productList |}
  end.

(** The seller e-mails of an order: one for each line item whose seller
    the store finds, in the order of the line items. *)
Fixpoint line_mails (E : env) (s : store) (kind : order_kind)
    (titles quantities : list value) (stock : nat -> value)
    (index : nat) (sellerIds : list value) : list email :=
  match sellerIds with
  | [] => []
  | sellerId :: rest =>
      match store_answer E s sellerId with
      | Ok (Some u) =>
          [ sellerMail kind u (nth index titles VUndef)
              (nth index quantities VUndef) (stock index) ]
      | _ => []
      end ++ line_mails E s kind titles quantities stock (S index) rest
  end.

(** The buyer's e-mail of an order, if the store finds the buyer. *)
Definition buyer_mails (E : env) (s : store) (kind : order_kind)
    (titles quantities : list value) (userId : value) : list email :=
  match store_answer E s userId with
  | Ok (Some u) => [ userMail kind u titles quantities ]
  | _ => []
  end.

(** No two records of the store have the same id. *)
Definition unique_ids (s : store) : Prop := forall id, records_of id s <= 1.

(** The store after the [user_data_sync] events [events], in this order. *)
Definition sync_all (E : env) (events : list value) (s : store) : store :=
  fold_left (fun s event => store_of (syncUserData E event s)) events s.

(** [returns m]: [m] never throws. *)
Definition returns {A : Type} (m : M A) : Prop :=
  forall s, exists a, result_of (m s) = Ok a.

(** [emits p m]: every call that [m] makes satisfies [p]. *)
Definition emits (p : effect -> bool) {A : Type} (m : M A) : Prop :=
  forall s, forallb p (trace_of (m s)) = true.

(** [reads m]: [m] leaves the store as it is. *)
Definition reads {A : Type} (m : M A) : Prop :=
  forall s, store_of (m s) = s.

(** ** Further observations *)

(** The ids of the reads of the store, in the order of the trace. *)
Fixpoint store_reads (t : list effect) : list value :=
  match t with
  | [] => []
  | StoreFindOne id :: rest => id :: store_reads rest
  | _ :: rest => store_reads rest
  end.

Definition is_upsert (e : effect) : bool :=
  match e with
  | StoreFindOneAndUpdate _ _ _ _ => true
  | _ => false
  end.

Definition is_send (e : effect) : bool :=
  match e with
  | SendEmail _ => true
  | _ => false
  end.

Definition is_read (e : effect) : bool :=
  match e with
  | StoreFindOne _ => true
  | _ => false
  end.

(** The provider accepts the e-mail. *)
Definition accepts (E : env) (m : email) : bool :=
  match sendEmail_fails E m with
  | None => true
  | Some _ => false
  end.

(** The e-mail of [user_created]. *)
Definition welcomeMail (u : user) : email :=
  {| to := u_email u;
     subject := "Welcome to Our Service";
     text := "Your account has been successfully created.";
     html := "<p>Your account has been created, welcome to our service!</p>" |}.

(** The three product events and the e-mail of each. *)
Inductive product_kind : Type :=
  ProductCreated | ProductUpdated | ProductDeleted.

Definition product_type (kind : product_kind) : string :=
  match kind with
  | ProductCreated => "product_created"
  | ProductUpdated => "product_updated"
  | ProductDeleted => "product_deleted"
  end.

(** The e-mail of a product event, as the source words it; [data] is
    the payload and [u] the record of its seller. *)
Definition productMail (E : env) (kind : product_kind) (data : value)
    (u : user) : email :=
  let username := shown (u_username u) in
  let title := shown (field data "title") in
  let description := shown (field data "description") in
  let category := shown (field data "category") in
  let price := shown (field data "price") in
  let quantity := shown (field data "quantity") in
  match kind with
  | ProductCreated =>
      {| to := u_email u;
         subject := "Product Created Successfully";
         text := ("Your product " ++ dq ++ title ++ dq
                  ++ " has been successfully created!")%string;
         html := productCreatedBody username title description price quantity
                   (toLocaleDateString E (field data "createdAt")) |}
  | ProductUpdated =>
      {| to := u_email u;
         subject := "Product Updated Successfully";
         text := ("Your product " ++ dq ++ title ++ dq
                  ++ " has been successfully updated!")%string;
         html := productUpdatedBody username title description category price
                   quantity |}
  | ProductDeleted =>
      {| to := u_email u;
         subject := "Product Deleted Successfully";
         text := ("Your product " ++ dq ++ title ++ dq
                  ++ " has been successfully deleted.")%string;
         html := productDeletedBody username title description category price
                   quantity |}
  end.

(** The properties of the payload that the e-mail of a product event
    shows. *)
Definition product_fields (kind : product_kind) : list string :=
  match kind with
  | ProductCreated =>
      ["createdAt"; "title"; "description"; "price"; "quantity"]%string
  | _ => ["title"; "description"; "category"; "price"; "quantity"]%string
  end.

(** The block that [handleProductEvents] runs for a product event. *)
Definition product_block (E : env) (kind : product_kind) (event : value)
  : M unit :=
  match kind with
  | ProductCreated => productCreated E event
  | ProductUpdated => productUpdated E event
  | ProductDeleted => productDeleted E event
  end.

(** The value whose text the seller e-mail of a line item shows as
    remaining stock: by product id for [order_placed] and [order_updated],
    by position for [order_deleted]. *)
Definition shown_stock (kind : order_kind) (products productIds : list value)
    (index : nat) : value :=
  match kind with
  | Deleted => nth index products VUndef
  | _ => remaining_stock products (nth index productIds VUndef)
  end.

(** What a lookup logs when it yields [null]. *)
Definition lookup_log (userId : value) (answer : pending) : list effect :=
  match answer with
  | Ok (Some _) => []
  | Ok None =>
      [ ConsoleError "Failed to fetch user details:"
          match to_string userId with
          | Ok wanted => ("User with ID " ++ wanted ++ " not found")%string
          | Throw e => err_message e
          end ]
  | Throw e => [ ConsoleError "Failed to fetch user details:" (err_message e) ]
  end.

(** What a lookup yields: the record, or [null]. *)
Definition found (answer : pending) : option user :=
  match answer with
  | Ok (Some u) => Some u
  | _ => None
  end.

(** A handler that throws, to exercise the [catch] of [consumeQueue]. *)
Definition throwing_handler (event : value) : M unit :=
  throw (Err "Error" "handler failed").

(* ===================================================================== *)
(** * Sample deliveries *)
(* ===================================================================== *)

Module Samples.

(** [JSON.stringify] on the values used below (strings without escapes). *)
Fixpoint json_text (v : value) : string :=
  match v with
  | VUndef | VNull => "null"
  | VBool true => "true"
  | VBool false => "false"
  | VNum text => text
  | VStr s => (dq ++ s ++ dq)%string
  | VArr xs =>
      ("[" ++ (fix items (l : list value) : string :=
                 match l with
                 | [] => ""
                 | [x] => json_text x
                 | x :: rest => json_text x ++ "," ++ items rest
                 end) xs ++ "]")%string
  | VObj fields =>
      ("{" ++ (fix members (l : list (string * value)) : string :=
                 match l with
                 | [] => ""
                 | [(k, x)] => dq ++ k ++ dq ++ ":" ++ json_text x
                 | (k, x) :: rest =>
                     dq ++ k ++ dq ++ ":" ++ json_text x ++ "," ++ members rest
                 end) fields ++ "}")%string
  end.

(** A decoder that knows the texts of [events] and refuses any other
    body. *)
Definition decode_among (events : list value) (body : string) : outcome value :=
  match find (fun event => String.eqb (json_text event) body) events with
  | Some event => Ok event
  | None => Throw (Err "SyntaxError" "Unexpected token in JSON")
  end.

Definition alice : user :=
  {| u_id := VStr "s1"; u_username := VStr "alice";
     u_email := VStr "alice@shop.example"; u_role := VStr "seller" |}.

Definition bob : user :=
  {| u_id := VStr "s2"; u_username := VStr "bob";
     u_email := VStr "bob@shop.example"; u_role := VStr "seller" |}.

Definition carol : user :=
  {| u_id := VStr "u1"; u_username := VStr "carol";
     u_email := VStr "carol@mail.example"; u_role := VStr "buyer" |}.

Definition users : store := [alice; bob; carol].

(** Two line items; the stock records know [p2] only, then [p1] at zero. *)
Definition stock_records : list value :=
  [ VObj [("productId", VStr "p2"); ("remainingQuantity", VNum "5")] ].

Definition order_fields (records : list value) : list (string * value) :=
  [ ("userId", VStr "u1");
    ("sellerIds", VArr [VStr "s1"; VStr "s2"]);
    ("productIds", VArr [VStr "p1"; VStr "p2"]);
    ("titles", VArr [VStr "Book"; VStr "Pen"]);
    ("quantities", VArr [VNum "1"; VNum "2"]);
    ("remainingQuantities", VArr records) ].

Definition order_event (type : string) (records : list value) : value :=
  VObj [("type", VStr type); ("data", VObj (order_fields records))].

Definition sold_out : list value :=
  [ VObj [("productId", VStr "p1"); ("remainingQuantity", VNum "0")];
    VObj [("productId", VStr "p2"); ("remainingQuantity", VNum "5")] ].

Definition sync_event : value :=
  VObj [ ("id", VStr "u1"); ("username", VStr "a"); ("email", VStr "a@x");
         ("role", VStr "seller") ].

Definition ping_event : value :=
  VObj [("type", VStr "ping"); ("data", VObj [])].

Definition known_events : list value :=
  [ order_event "order_placed" stock_records;
    order_event "order_updated" sold_out;
    order_event "order_deleted" stock_records;
    sync_event; ping_event ].

Definition delivery (event : value) (tag : nat) : message :=
  {| content := json_text event; deliveryTag := tag |}.

Definition garbled (tag : nat) : message :=
  {| content := "not json"; deliveryTag := tag |}.

(** Every collaborator answers. *)
Definition healthy : env :=
  {| JSON_parse := decode_among known_events;
     findOne_fails := fun _ => None;
     findOneAndUpdate_fails := fun _ => None;
     sendEmail_fails := fun _ => None;
     toLocaleDateString := fun _ => "1/1/2025" |}.

(** The mail provider refuses one address. *)
Definition refusing (address : string) : env :=
  {| JSON_parse := decode_among known_events;
     findOne_fails := fun _ => None;
     findOneAndUpdate_fails := fun _ => None;
     sendEmail_fails :=
       fun m =>
         if strict_eq (to m) (VStr address)
         then Some (Err "Error" "Mailbox unavailable")
         else None;
     toLocaleDateString := fun _ => "1/1/2025" |}.

(** The document store refuses every write. *)
Definition store_down : env :=
  {| JSON_parse := decode_among known_events;
     findOne_fails := fun _ => None;
     findOneAndUpdate_fails :=
       fun _ => Some (Err "MongoNetworkError" "connection refused");
     sendEmail_fails := fun _ => None;
     toLocaleDateString := fun _ => "1/1/2025" |}.

End Samples.

(* ===================================================================== *)
(** * Facts *)
(* ===================================================================== *)

Import Samples.

Section Run.
Context {A B : Type}.

Lemma bind_Ok (m : M A) (k : A -> M B) s a s1 t1 :
  m s = (Ok a, s1, t1) ->
  bind m k s = (result_of (k a s1), store_of (k a s1),
                t1 ++ trace_of (k a s1)).
Proof.
  intros H. unfold bind. rewrite H.
  destruct (k a s1) as [[r s2] t2]. reflexivity.
Qed.

Lemma bind_Throw (m : M A) (k : A -> M B) s e s1 t1 :
  m s = (Throw e, s1, t1) -> bind m k s = (Throw e, s1, t1).
Proof. intros H. unfold bind. rewrite H. reflexivity. Qed.

Lemma try_catch_Ok (m : M A) (h : error -> M A) s a s1 t1 :
  m s = (Ok a, s1, t1) -> try_catch m h s = (Ok a, s1, t1).
Proof. intros H. unfold try_catch. rewrite H. reflexivity. Qed.

Lemma try_catch_Throw (m : M A) (h : error -> M A) s e s1 t1 :
  m s = (Throw e, s1, t1) ->
  try_catch m h s = (result_of (h e s1), store_of (h e s1),
                     t1 ++ trace_of (h e s1)).
Proof.
  intros H. unfold try_catch. rewrite H.
  destruct (h e s1) as [[r s2] t2]. reflexivity.
Qed.

Lemma run_eta (r : outcome A * store * list effect) :
  r = (result_of r, store_of r, trace_of r).
Proof. destruct r as [[o s] t]. reflexivity. Qed.
End Run.

Section Footprint.
Context {A B : Type}.
Variable p : effect -> bool.

Lemma returns_ret (a : A) : returns (ret a).
Proof. intros s. exists a. reflexivity. Qed.

Lemma returns_emit e : returns (emit e).
Proof. intros s. exists tt. reflexivity. Qed.

Lemma returns_bind (m : M A) (k : A -> M B) :
  returns m -> (forall a, returns (k a)) -> returns (bind m k).
Proof.
  intros Hm Hk s. destruct (Hm s) as [a Ha].
  destruct (m s) as [[r s1] t1] eqn:Hrun. unfold result_of in Ha.
  simpl in Ha. subst r.
  rewrite (bind_Ok m k s a s1 t1 Hrun). apply Hk.
Qed.

Lemma returns_try_catch (m : M A) (h : error -> M A) :
  (forall e, returns (h e)) -> returns (try_catch m h).
Proof.
  intros Hh s. destruct (m s) as [[[a | e] s1] t1] eqn:Hrun.
  - rewrite (try_catch_Ok m h s a s1 t1 Hrun). exists a. reflexivity.
  - rewrite (try_catch_Throw m h s e s1 t1 Hrun). apply Hh.
Qed.

Lemma emits_ret (a : A) : emits p (ret a).
Proof. intros s. reflexivity. Qed.

Lemma emits_throw e : emits p (@throw A e).
Proof. intros s. reflexivity. Qed.

Lemma emits_lift (o : outcome A) : emits p (lift o).
Proof. intros s. reflexivity. Qed.

Lemma emits_emit e : p e = true -> emits p (emit e).
Proof. intros H s. simpl. rewrite H. reflexivity. Qed.

Lemma emits_bind (m : M A) (k : A -> M B) :
  emits p m -> (forall a, emits p (k a)) -> emits p (bind m k).
Proof.
  intros Hm Hk s. specialize (Hm s).
  destruct (m s) as [[[a | e] s1] t1] eqn:Hrun; unfold trace_of in Hm;
    simpl in Hm.
  - rewrite (bind_Ok m k s a s1 t1 Hrun). unfold trace_of at 1. simpl.
    rewrite forallb_app. rewrite Hm. apply Hk.
  - rewrite (bind_Throw m k s e s1 t1 Hrun). exact Hm.
Qed.

Lemma emits_try_catch (m : M A) (h : error -> M A) :
  emits p m -> (forall e, emits p (h e)) -> emits p (try_catch m h).
Proof.
  intros Hm Hh s. specialize (Hm s).
  destruct (m s) as [[[a | e] s1] t1] eqn:Hrun; unfold trace_of in Hm;
    simpl in Hm.
  - rewrite (try_catch_Ok m h s a s1 t1 Hrun). exact Hm.
  - rewrite (try_catch_Throw m h s e s1 t1 Hrun). unfold trace_of at 1.
    simpl. rewrite forallb_app. rewrite Hm. apply Hh.
Qed.

Lemma emits_settle (m : M A) : emits p m -> emits p (settle m).
Proof.
  intros Hm s. specialize (Hm s). unfold settle.
  destruct (m s) as [[r s1] t1]. exact Hm.
Qed.

Lemma reads_ret (a : A) : reads (ret a).
Proof. intros s. reflexivity. Qed.

Lemma reads_throw e : reads (@throw A e).
Proof. intros s. reflexivity. Qed.

Lemma reads_lift (o : outcome A) : reads (lift o).
Proof. intros s. reflexivity. Qed.

Lemma reads_emit e : reads (emit e).
Proof. intros s. reflexivity. Qed.

Lemma reads_bind (m : M A) (k : A -> M B) :
  reads m -> (forall a, reads (k a)) -> reads (bind m k).
Proof.
  intros Hm Hk s. specialize (Hm s).
  destruct (m s) as [[[a | e] s1] t1] eqn:Hrun; unfold store_of in Hm;
    simpl in Hm; subst s1.
  - rewrite (bind_Ok m k s a s t1 Hrun). apply Hk.
  - rewrite (bind_Throw m k s e s t1 Hrun). reflexivity.
Qed.

Lemma reads_try_catch (m : M A) (h : error -> M A) :
  reads m -> (forall e, reads (h e)) -> reads (try_catch m h).
Proof.
  intros Hm Hh s. specialize (Hm s).
  destruct (m s) as [[[a | e] s1] t1] eqn:Hrun; unfold store_of in Hm;
    simpl in Hm; subst s1.
  - rewrite (try_catch_Ok m h s a s t1 Hrun). reflexivity.
  - rewrite (try_catch_Throw m h s e s t1 Hrun). apply Hh.
Qed.

Lemma reads_settle (m : M A) : reads m -> reads (settle m).
Proof.
  intros Hm s. specialize (Hm s). unfold settle.
  destruct (m s) as [[r s1] t1]. exact Hm.
Qed.
End Footprint.

Create HintDb footprint.
#[local] Hint Resolve returns_ret returns_emit returns_bind returns_try_catch
  emits_ret emits_throw emits_lift emits_emit emits_bind emits_try_catch
  emits_settle reads_ret reads_throw reads_lift reads_emit reads_bind
  reads_try_catch reads_settle : footprint.

(** Breaks a computation at its binds and at the tests it branches on. *)
Ltac footprint :=
  repeat first
    [ progress intros
    | apply emits_bind | apply emits_try_catch | apply emits_settle
    | apply reads_bind | apply reads_try_catch | apply reads_settle
    | apply returns_bind | apply returns_try_catch
    | solve [ auto with footprint ]
    | match goal with
      | |- context [ match ?x with _ => _ end ] => destruct x
      end ].

(** ** The calls of the collaborators *)

Section Primitives.
Variable p : effect -> bool.
Variable E : env.

Lemma emits_sendEmail to subject text html :
  (forall m, p (SendEmail m) = true) ->
  emits p (sendEmail E to subject text html).
Proof. intros H s. unfold sendEmail, trace_of. simpl. rewrite H. reflexivity. Qed.

Lemma reads_sendEmail to subject text html :
  reads (sendEmail E to subject text html).
Proof. intros s. reflexivity. Qed.

Lemma emits_User_findOne id :
  (forall i, p (StoreFindOne i) = true) -> emits p (User_findOne E id).
Proof. intros H s. unfold User_findOne, trace_of. simpl. rewrite H. reflexivity. Qed.

Lemma reads_User_findOne id : reads (User_findOne E id).
Proof. intros s. reflexivity. Qed.

Lemma emits_User_findOneAndUpdate id username email role :
  (forall i u e r, p (StoreFindOneAndUpdate i u e r) = true) ->
  emits p (User_findOneAndUpdate E id username email role).
Proof.
  intros H s. unfold User_findOneAndUpdate, trace_of.
  destruct (findOneAndUpdate_fails E id); simpl; rewrite H; reflexivity.
Qed.
End Primitives.

#[local] Hint Resolve emits_sendEmail reads_sendEmail emits_User_findOne
  reads_User_findOne emits_User_findOneAndUpdate : footprint.
#[local] Hint Extern 1 (forall _, _ = true) => intros; reflexivity : footprint.
#[local] Hint Extern 1 (_ = true) => reflexivity : footprint.

Ltac open_handlers :=
  unfold handleAuthEvents, handleProductEvents, handleOrderEvents,
    syncUserData, when_type, productCreated, productUpdated, productDeleted,
    orderCase, orderFanOut, seller_resume, fetchUserDetails,
    fetchUserDetails_call, fetchUserDetails_resume, console_error,
    console_log, channel_ack, channel_nack.

Section HandlerFootprint.
Variable p : effect -> bool.
Hypothesis p_find : forall i, p (StoreFindOne i) = true.
Hypothesis p_upsert : forall i u e r, p (StoreFindOneAndUpdate i u e r) = true.
Hypothesis p_send : forall m, p (SendEmail m) = true.
Hypothesis p_log : forall l a, p (ConsoleLog l a) = true.
Hypothesis p_error : forall l m, p (ConsoleError l m) = true.
Variable E : env.

Lemma emits_seller_calls sellerIds : emits p (seller_calls E sellerIds).
Proof.
  induction sellerIds as [| sellerId rest IH]; simpl; open_handlers;
    footprint.
Qed.

Lemma emits_seller_promises kind event sellerIds :
  forall index answers,
    emits p (seller_promises E kind event index sellerIds answers).
Proof.
  induction sellerIds as [| sellerId rest IH]; intros index answers;
    simpl; [ footprint | ].
  destruct answers as [| answer answers']; [ footprint | ].
  apply emits_bind; [ | intros r; apply emits_bind; [ apply IH | footprint ] ].
  open_handlers. footprint.
Qed.

Lemma emits_handleOrderEvents event : emits p (handleOrderEvents E event).
Proof.
  pose proof emits_seller_calls. pose proof emits_seller_promises.
  open_handlers. footprint.
Qed.

Lemma emits_handleProductEvents event : emits p (handleProductEvents E event).
Proof. open_handlers. footprint. Qed.

Lemma emits_handleAuthEvents event : emits p (handleAuthEvents E event).
Proof. open_handlers. footprint. Qed.

Lemma emits_syncUserData event : emits p (syncUserData E event).
Proof. open_handlers. footprint. Qed.
End HandlerFootprint.

Section ConsumeQueue.
Variable E : env.
Variable queue : string.
Variable handler : value -> M unit.
Variable msg : message.

Lemma consumeQueue_undecoded s e :
  JSON_parse E (content msg) = Throw e ->
  consumeQueue E queue handler msg s = (Throw e, s, []).
Proof. intros H. unfold consumeQueue, bind, lift. rewrite H. reflexivity. Qed.

Lemma consumeQueue_handled s event :
  JSON_parse E (content msg) = Ok event ->
  result_of (handler event s) = Ok tt ->
  consumeQueue E queue handler msg s =
    (Ok tt, store_of (handler event s),
     received queue event :: trace_of (handler event s)
       ++ [ChannelAck (deliveryTag msg)]).
Proof.
  intros Hparse Hrun. unfold consumeQueue, bind, lift, try_catch,
    console_log, channel_ack, emit. rewrite Hparse.
  destruct (handler event s) as [[r s1] t1]. unfold result_of in Hrun.
  simpl in Hrun. subst r. reflexivity.
Qed.

Lemma consumeQueue_failed s event e :
  JSON_parse E (content msg) = Ok event ->
  result_of (handler event s) = Throw e ->
  consumeQueue E queue handler msg s =
    (Ok tt, store_of (handler event s),
     received queue event :: trace_of (handler event s)
       ++ [ConsoleError ("Error handling event from " ++ queue ++ ":")%string
             (err_message e);
           ChannelNack (deliveryTag msg) false false]).
Proof.
  intros Hparse Hrun. unfold consumeQueue, bind, lift, try_catch,
    console_error, channel_nack, console_log, channel_ack, emit.
  rewrite Hparse.
  destruct (handler event s) as [[r s1] t1]. unfold result_of in Hrun.
  simpl in Hrun. subst r. reflexivity.
Qed.
End ConsumeQueue.

Lemma existsb_app_last {A} (f : A -> bool) l x :
  existsb f (l ++ [x]) = existsb f l || f x.
Proof. rewrite existsb_app. simpl. rewrite orb_false_r. reflexivity. Qed.

Lemma quiet_not_rejected msg t :
  forallb quiet t = true -> rejected msg t = false.
Proof.
  unfold rejected. induction t as [| e t IH]; simpl; [ reflexivity | ].
  intros H. apply andb_prop in H. destruct H as [He Ht].
  rewrite (IH Ht). destruct e; try reflexivity; discriminate He.
Qed.

Lemma quiet_not_acked msg t :
  forallb quiet t = true -> acked msg t = false.
Proof.
  unfold acked. induction t as [| e t IH]; simpl; [ reflexivity | ].
  intros H. apply andb_prop in H. destruct H as [He Ht].
  rewrite (IH Ht). destruct e; try reflexivity; discriminate He.
Qed.

Lemma handler_returns E queue handler :
  In (queue, handler) (initConsumer E) ->
  forall event s, result_of (handler event s) = Ok tt.
Proof.
  intros Hin event s.
  assert (H : returns (handler event)).
  { simpl in Hin.
    repeat (destruct Hin as [Hin | Hin];
            [ inversion Hin; subst; open_handlers; footprint | ]).
    contradiction. }
  destruct (H s) as [[] Ha]. exact Ha.
Qed.

Lemma handler_quiet E queue handler :
  In (queue, handler) (initConsumer E) ->
  forall event, emits quiet (handler event).
Proof.
  intros Hin event. simpl in Hin.
  repeat (destruct Hin as [Hin | Hin];
          [ inversion Hin; subst;
            first [ apply emits_handleProductEvents
                  | apply emits_handleOrderEvents
                  | apply emits_handleAuthEvents
                  | apply emits_syncUserData ]; intros; reflexivity | ]).
  contradiction.
Qed.

(** A handler that returns normally and does not touch the channel gets
    its message acknowledged. *)
Lemma consumeQueue_acks E queue handler msg event s :
  JSON_parse E (content msg) = Ok event ->
  result_of (handler event s) = Ok tt ->
  forallb quiet (trace_of (handler event s)) = true ->
  let run := consumeQueue E queue handler msg s in
  result_of run = Ok tt /\
  acked msg (trace_of run) = true /\
  rejected msg (trace_of run) = false.
Proof.
  intros Hparse Hret Hquiet run. subst run.
  rewrite (consumeQueue_handled E queue handler msg s event Hparse Hret).
  unfold result_of, trace_of. simpl. split; [ reflexivity | ]. split.
  - unfold acked. simpl. rewrite existsb_app_last. simpl.
    rewrite Nat.eqb_refl. apply orb_true_r.
  - unfold rejected. simpl. rewrite existsb_app_last. simpl.
    rewrite orb_false_r. apply (quiet_not_rejected msg). exact Hquiet.
Qed.

Lemma order_subscription E :
  In ("order_events_for_notifications", handleOrderEvents E) (initConsumer E).
Proof. simpl. auto. Qed.

Lemma value_eqb_refl : forall v, value_eqb v v = true.
Proof.
  fix IH 1. intros [ | | b | z | s | xs | fields ]; simpl.
  - reflexivity.
  - reflexivity.
  - apply Bool.eqb_reflx.
  - apply String.eqb_refl.
  - apply String.eqb_refl.
  - induction xs as [| x xs IHxs]; [ reflexivity | ].
    rewrite IH. exact IHxs.
  - induction fields as [| [k x] fields IHfields]; [ reflexivity | ].
    rewrite String.eqb_refl, IH. exact IHfields.
Qed.

Section Upsert.
Variables id username email role : value.

Lemma has_id_set_fields u :
  has_id id (set_fields username email role u) = has_id id u.
Proof. reflexivity. Qed.

Lemma set_fields_twice u :
  set_fields username email role (set_fields username email role u)
  = set_fields username email role u.
Proof. reflexivity. Qed.

Lemma store_upsert_twice s :
  store_upsert id username email role (store_upsert id username email role s)
  = store_upsert id username email role s.
Proof.
  induction s as [| u rest IH]; simpl.
  - unfold has_id. simpl. rewrite value_eqb_refl. reflexivity.
  - destruct (has_id id u) eqn:Hu; simpl.
    + rewrite has_id_set_fields, Hu. reflexivity.
    + rewrite Hu, IH. reflexivity.
Qed.

Lemma records_of_upsert s :
  records_of id (store_upsert id username email role s)
  = Nat.max 1 (records_of id s).
Proof.
  unfold records_of. induction s as [| u rest IH]; simpl.
  - unfold has_id. simpl. rewrite value_eqb_refl. reflexivity.
  - destruct (has_id id u) eqn:Hu; simpl.
    + rewrite has_id_set_fields, Hu. reflexivity.
    + rewrite Hu. exact IH.
Qed.

Lemma store_find_upsert s :
  exists u,
    store_find id (store_upsert id username email role s) = Some u /\
    has_id id u = true /\
    u_username u = username /\ u_email u = email /\ u_role u = role.
Proof.
  unfold store_find. induction s as [| u rest IH]; simpl.
  - exists {| u_id := id; u_username := username; u_email := email;
              u_role := role |}.
    unfold has_id. simpl. rewrite value_eqb_refl. auto.
  - destruct (has_id id u) eqn:Hu; simpl.
    + rewrite has_id_set_fields, Hu.
      exists (set_fields username email role u). auto.
    + rewrite Hu. exact IH.
Qed.
End Upsert.

Lemma syncUserData_run E event s :
  destructure event "event" "id" = Ok event ->
  syncUserData E event s =
    let id := field event "id" in
    let call := StoreFindOneAndUpdate id (field event "username")
                  (field event "email") (field event "role") in
    match findOneAndUpdate_fails E id with
    | Some e =>
        (Ok tt, s,
         [call; ConsoleError "Error syncing user data:" (err_message e)])
    | None =>
        (Ok tt,
         store_upsert id (field event "username") (field event "email")
           (field event "role") s,
         [call;
          match to_string id with
          | Ok synced => ConsoleLog ("User data synced: " ++ synced)%string []
          | Throw e => ConsoleError "Error syncing user data:" (err_message e)
          end])
    end.
Proof.
  intros H. unfold syncUserData, try_catch, bind, lift. rewrite H.
  unfold User_findOneAndUpdate.
  destruct (findOneAndUpdate_fails E (field event "id")); [ reflexivity | ].
  destruct (to_string (field event "id")); reflexivity.
Qed.

Lemma destructure_get_prop event expr first k v :
  get_prop event k = Ok v -> destructure event expr first = Ok event.
Proof. destruct event; simpl; intros H; try discriminate H; reflexivity. Qed.

Lemma get_prop_field event k v : get_prop event k = Ok v -> v = field event k.
Proof. destruct event; simpl; intros H; inversion H; reflexivity. Qed.

(** ** The ids of a synced store are unique *)

Lemma value_eqb_eq : forall a b, value_eqb a b = true -> a = b.
Proof.
  fix IH 1. intros a b.
  destruct a as [ | | x | x | x | xs | fs ],
           b as [ | | y | y | y | ys | gs ];
    simpl; try discriminate; intros H.
  - reflexivity.
  - reflexivity.
  - apply Bool.eqb_prop in H. subst. reflexivity.
  - apply String.eqb_eq in H. subst. reflexivity.
  - apply String.eqb_eq in H. subst. reflexivity.
  - f_equal. revert ys H.
    induction xs as [| x xs IHxs]; intros [| y ys] H; try discriminate H.
    + reflexivity.
    + apply andb_prop in H. destruct H as [Hx Hxs].
      rewrite (IH x y Hx), (IHxs ys Hxs). reflexivity.
  - f_equal. revert gs H.
    induction fs as [| [k x] fs IHfs]; intros [| [k' y] gs] H;
      try discriminate H.
    + reflexivity.
    + apply andb_prop in H. destruct H as [H Hfs].
      apply andb_prop in H. destruct H as [Hk Hx].
      apply String.eqb_eq in Hk. subst k'.
      rewrite (IH x y Hx), (IHfs gs Hfs). reflexivity.
Qed.

Lemma records_of_other_upsert id username email role id' s :
  records_of id' (store_upsert id username email role s) =
    if existsb (has_id id) s then records_of id' s
    else records_of id' s + (if value_eqb id id' then 1 else 0).
Proof.
  unfold records_of. induction s as [| u rest IH]; simpl.
  - unfold has_id. simpl. destruct (value_eqb id id'); reflexivity.
  - destruct (has_id id u) eqn:Hu; simpl.
    + rewrite has_id_set_fields. destruct (has_id id' u); reflexivity.
    + destruct (has_id id' u); simpl; rewrite IH;
        destruct (existsb (has_id id) rest); reflexivity.
Qed.

Lemma records_of_absent id s :
  existsb (has_id id) s = false -> records_of id s = 0.
Proof.
  unfold records_of. induction s as [| u rest IH]; simpl; [ reflexivity | ].
  intros H. apply orb_false_elim in H. destruct H as [Hu Hrest].
  rewrite Hu. apply IH. exact Hrest.
Qed.

Lemma store_upsert_unique id username email role s :
  unique_ids s -> unique_ids (store_upsert id username email role s).
Proof.
  intros Hs id'. rewrite records_of_other_upsert.
  destruct (existsb (has_id id) s) eqn:Hex; [ apply Hs | ].
  destruct (value_eqb id id') eqn:Heq.
  - apply value_eqb_eq in Heq. subst id'.
    rewrite (records_of_absent id s Hex). lia.
  - rewrite Nat.add_0_r. apply Hs.
Qed.

Lemma syncUserData_unique E event s :
  unique_ids s -> unique_ids (store_of (syncUserData E event s)).
Proof.
  intros Hs.
  destruct (destructure event "event" "id") as [ev | e] eqn:Hd.
  - assert (ev = event) by (destruct event; inversion Hd; reflexivity).
    subst ev. rewrite (syncUserData_run E event s Hd). cbv zeta.
    destruct (findOneAndUpdate_fails E (field event "id")); unfold store_of;
      simpl; [ exact Hs | apply store_upsert_unique; exact Hs ].
  - unfold syncUserData, try_catch, bind, lift. rewrite Hd. exact Hs.
Qed.

Lemma sync_all_unique E events :
  forall s, unique_ids s -> unique_ids (sync_all E events s).
Proof.
  unfold sync_all. induction events as [| event rest IH]; intros s Hs; simpl.
  - exact Hs.
  - apply IH. apply syncUserData_unique. exact Hs.
Qed.

Lemma synced_store_unique E events : unique_ids (sync_all E events []).
Proof. apply sync_all_unique. intros id. unfold records_of. simpl. lia. Qed.

Lemma strict_eq_VStr v t : strict_eq v (VStr t) = true -> v = VStr t.
Proof.
  destruct v; simpl; intros H; try discriminate H.
  apply String.eqb_eq in H. subst. reflexivity.
Qed.

Lemma other_type ty t :
  @Ok value ty <> Ok (VStr t) -> strict_eq ty (VStr t) = false.
Proof.
  intros Hne. destruct (strict_eq ty (VStr t)) eqn:Heq; [ | reflexivity ].
  apply strict_eq_VStr in Heq. subst ty. contradiction.
Qed.

Lemma when_type_throws event t block s e :
  get_prop event "type" = Throw e ->
  when_type event t block s = (Throw e, s, []).
Proof. intros H. unfold when_type, bind, lift. rewrite H. reflexivity. Qed.

Lemma when_type_skips event t block s ty :
  get_prop event "type" = Ok ty ->
  @Ok value ty <> Ok (VStr t) ->
  when_type event t block s = (Ok tt, s, []).
Proof.
  intros Hty Hne. unfold when_type, bind, lift. rewrite Hty.
  rewrite (other_type ty t Hne). reflexivity.
Qed.

Lemma handleProductEvents_unknown E event s :
  (forall t, In t ["product_created"; "product_updated"; "product_deleted"] ->
             get_prop event "type" <> Ok (VStr t)) ->
  exists t, handleProductEvents E event s = (Ok tt, s, t) /\ no_action t = true.
Proof.
  intros H. unfold handleProductEvents, try_catch, bind.
  destruct (get_prop event "type") as [ty | e] eqn:Hty.
  - rewrite !(when_type_skips event _ _ s ty Hty)
      by (apply H; simpl; auto).
    eexists. split; reflexivity.
  - rewrite (when_type_throws event _ _ s e Hty).
    eexists. split; reflexivity.
Qed.

Lemma handleAuthEvents_unknown E event s :
  (forall t, In t ["user_created"] -> get_prop event "type" <> Ok (VStr t)) ->
  exists t, handleAuthEvents E event s = (Ok tt, s, t) /\ no_action t = true.
Proof.
  intros H. unfold handleAuthEvents, try_catch, bind, console_log, emit, lift.
  destruct (get_prop event "type") as [ty | e] eqn:Hty.
  - rewrite (other_type ty "user_created" (H _ (or_introl eq_refl))).
    eexists. split; reflexivity.
  - eexists. split; reflexivity.
Qed.

Lemma order_kind_of_Some ty kind :
  order_kind_of ty = Some kind ->
  exists t, ty = VStr t /\
            In t ["order_placed"; "order_updated"; "order_deleted"].
Proof.
  destruct ty as [ | | | | t | | ]; simpl; try discriminate.
  repeat match goal with
         | |- context [ String.eqb t ?c ] =>
             destruct (String.eqb_spec t c); [ subst; simpl; eauto 6 | ]
         end.
  discriminate.
Qed.

Lemma handleOrderEvents_unknown E event s :
  (forall t, In t ["order_placed"; "order_updated"; "order_deleted"] ->
             get_prop event "type" <> Ok (VStr t)) ->
  exists t, handleOrderEvents E event s = (Ok tt, s, t) /\ no_action t = true.
Proof.
  intros H. unfold handleOrderEvents, try_catch, bind, console_log, emit, lift.
  destruct (get_prop event "type") as [ty | e] eqn:Hty.
  - destruct (order_kind_of ty) as [kind |] eqn:Hkind.
    + apply order_kind_of_Some in Hkind. destruct Hkind as [t [-> Hin]].
      exfalso. apply (H t Hin). reflexivity.
    + destruct (to_string ty); eexists; split; reflexivity.
  - eexists. split; reflexivity.
Qed.

Lemma sent_app t1 t2 : sent (t1 ++ t2) = sent t1 ++ sent t2.
Proof.
  induction t1 as [| e t1 IH]; simpl; [ reflexivity | ].
  destruct e; simpl; rewrite IH; reflexivity.
Qed.

Section OrderData.
Variable event : value.
Variable fields : list (string * value).
Hypothesis event_data : get_prop event "data" = Ok (VObj fields).

Lemma data_field_assoc k :
  data_field event k = Ok (field (VObj fields) k).
Proof. unfold data_field. rewrite event_data. reflexivity. Qed.

Lemma line_field_array k xs index :
  assoc k fields = Some (VArr xs) ->
  line_field event k index = Ok (nth index xs VUndef).
Proof.
  intros H. unfold line_field. rewrite data_field_assoc. simpl.
  rewrite H. reflexivity.
Qed.

Variables productIds products : list value.
Hypothesis data_productIds : assoc "productIds" fields = Some (VArr productIds).
Hypothesis data_products :
  assoc "remainingQuantities" fields = Some (VArr products).

Lemma array_find_records index (l : list value) :
  forallb is_record l = true ->
  array_find (same_product event index) l =
    Ok (match find (fun product =>
                      strict_eq (field product "productId")
                                (nth index productIds VUndef)) l with
        | Some product => product
        | None => VUndef
        end).
Proof.
  induction l as [| product rest IH]; simpl; [ reflexivity | ].
  intros H. apply andb_prop in H. destruct H as [Hrec Hrest].
  unfold same_product at 1.
  rewrite (line_field_array "productIds" productIds index data_productIds).
  destruct product; try discriminate Hrec. simpl.
  match goal with |- context [ strict_eq ?a ?b ] => destruct (strict_eq a b) end.
  - reflexivity.
  - apply IH. exact Hrest.
Qed.

Lemma find_record (f : value -> bool) (l : list value) product :
  forallb is_record l = true -> find f l = Some product ->
  is_record product = true.
Proof.
  induction l as [| x rest IH]; simpl; [ discriminate | ].
  intros H. apply andb_prop in H. destruct H as [Hx Hrest].
  destruct (f x); [ intros Heq; inversion Heq; subst; exact Hx | ].
  apply IH. exact Hrest.
Qed.

Lemma remainingQuantity_of_by_productId kind index :
  kind <> Deleted ->
  forallb is_record products = true ->
  remainingQuantity_of kind event index =
    Ok (remaining_stock products (nth index productIds VUndef)).
Proof.
  intros Hkind Hrec.
  assert (Hrun : remainingQuantity_of Placed event index =
            Ok (remaining_stock products (nth index productIds VUndef))).
  { unfold remainingQuantity_of. rewrite data_field_assoc. simpl.
    rewrite data_products. simpl. rewrite (array_find_records index _ Hrec).
    simpl. unfold remaining_stock.
    destruct (find _ products) as [product |] eqn:Hfind; [ | reflexivity ].
    apply (find_record _ _ _ Hrec) in Hfind.
    destruct product; try discriminate Hfind. reflexivity. }
  destruct kind; [ exact Hrun | exact Hrun | contradiction ].
Qed.

Lemma remainingQuantity_of_by_index index :
  remainingQuantity_of Deleted event index = Ok (nth index products VUndef).
Proof.
  unfold remainingQuantity_of.
  apply (line_field_array "remainingQuantities" products index data_products).
Qed.
End OrderData.

(** ** What a printable value shows *)

Lemma printable_shown v : printable v = true -> to_string v = Ok (shown v).
Proof.
  unfold printable, shown. destruct (to_string v); [ reflexivity | discriminate ].
Qed.

Lemma printable_nth l :
  forallb printable l = true ->
  forall index, printable (nth index l VUndef) = true.
Proof.
  induction l as [| x l IH]; intros H [| index]; simpl; try reflexivity;
    simpl in H; apply andb_prop in H; destruct H as [Hx Hl];
    [ exact Hx | apply IH; exact Hl ].
Qed.

Lemma printable_or_else v :
  printable v = true -> printable (or_else v (VStr "Unknown")) = true.
Proof. intros H. unfold or_else. destruct (truthy v); [ exact H | reflexivity ]. Qed.

Lemma join_elem_shown x :
  printable x = true ->
  join_elem to_string x = Ok (if nullish x then ""%string else shown x).
Proof.
  destruct x; try reflexivity; intros H; exact (printable_shown _ H).
Qed.

Lemma array_join_listed titles :
  forallb printable titles = true ->
  array_join ", " titles = Ok (listed_titles titles).
Proof.
  unfold array_join, listed_titles.
  induction titles as [| x rest IH]; [ reflexivity | ].
  intros H. simpl in H. apply andb_prop in H. destruct H as [Hx Hrest].
  destruct rest as [| y rest'].
  - simpl. apply join_elem_shown. exact Hx.
  - change (join_with to_string ", " (x :: y :: rest'))
      with (obind (join_elem to_string x)
              (fun first =>
                 obind (join_with to_string ", " (y :: rest'))
                   (fun others => Ok (first ++ ", " ++ others)%string))).
    rewrite (join_elem_shown x Hx), (IH Hrest). reflexivity.
Qed.

Lemma store_answer_In E s id u : store_answer E s id = Ok (Some u) -> In u s.
Proof.
  unfold store_answer, store_find.
  destruct (findOne_fails E id); [ discriminate | ].
  intros H. inversion H as [Hfind]. apply find_some in Hfind. apply Hfind.
Qed.

Lemma named_store E s id u :
  forallb named s = true -> store_answer E s id = Ok (Some u) ->
  printable (u_username u) = true.
Proof.
  intros Hs Hu. apply store_answer_In in Hu.
  rewrite forallb_forall in Hs. apply (Hs u Hu).
Qed.

(** ** Traces *)

Lemma store_reads_app t1 t2 :
  store_reads (t1 ++ t2) = store_reads t1 ++ store_reads t2.
Proof.
  induction t1 as [| e t1 IH]; simpl; [ reflexivity | ].
  destruct e; simpl; rewrite IH; reflexivity.
Qed.

Lemma store_reads_finds ids : store_reads (map StoreFindOne ids) = ids.
Proof. induction ids as [| id ids IH]; simpl; [ | rewrite IH ]; reflexivity. Qed.

Lemma no_reads t :
  forallb (fun e => negb (is_read e)) t = true -> store_reads t = [].
Proof.
  induction t as [| e t IH]; simpl; [ reflexivity | ].
  intros H. apply andb_prop in H. destruct H as [He Ht].
  destruct e; try discriminate He; apply IH; exact Ht.
Qed.

Lemma no_sends t :
  forallb (fun e => negb (is_send e)) t = true -> sent t = [].
Proof.
  induction t as [| e t IH]; simpl; [ reflexivity | ].
  intros H. apply andb_prop in H. destruct H as [He Ht].
  destruct e; try discriminate He; apply IH; exact Ht.
Qed.

Lemma quiet_no_channel t :
  forallb quiet t = true -> filter is_channel t = [].
Proof.
  induction t as [| e t IH]; simpl; [ reflexivity | ].
  intros H. apply andb_prop in H. destruct H as [He Ht].
  unfold quiet in He. destruct (is_channel e); [ discriminate He | ].
  apply IH. exact Ht.
Qed.

Lemma fetchUserDetails_resume_trace userId answer s :
  fetchUserDetails_resume userId answer s =
    (Ok (found answer), s, lookup_log userId answer).
Proof.
  destruct answer as [[u |] | e]; try reflexivity.
  unfold fetchUserDetails_resume, try_catch, bind, lift, lookup_log.
  destruct (to_string userId); reflexivity.
Qed.

Lemma fetchUserDetails_trace E userId s :
  fetchUserDetails E userId s =
    (Ok (found (store_answer E s userId)), s,
     StoreFindOne userId :: lookup_log userId (store_answer E s userId)).
Proof.
  unfold fetchUserDetails, bind, fetchUserDetails_call, User_findOne.
  rewrite fetchUserDetails_resume_trace. reflexivity.
Qed.

Lemma lookup_log_silent userId answer :
  sent (lookup_log userId answer) = [] /\
  store_reads (lookup_log userId answer) = [].
Proof. destruct answer as [[u |] | e]; split; reflexivity. Qed.

Lemma fetchUserDetails_resume_run userId answer s :
  exists logs,
    fetchUserDetails_resume userId answer s =
      (Ok (match answer with Ok (Some u) => Some u | _ => None end), s, logs)
    /\ sent logs = [].
Proof.
  exists (lookup_log userId answer). split.
  - apply fetchUserDetails_resume_trace.
  - apply lookup_log_silent.
Qed.

Lemma seller_calls_run E sellerIds s :
  seller_calls E sellerIds s =
    (Ok (map (store_answer E s) sellerIds), s, map StoreFindOne sellerIds).
Proof.
  induction sellerIds as [| sellerId rest IH]; [ reflexivity | ].
  simpl. unfold bind, fetchUserDetails_call, User_findOne. rewrite IH.
  unfold ret. simpl. rewrite app_nil_r. reflexivity.
Qed.

Lemma sent_finds ids : sent (map StoreFindOne ids) = [].
Proof. induction ids; simpl; auto. Qed.

Lemma sendEmail_run E m s :
  sendEmail E (to m) (subject m) (text m) (html m) s =
    (match sendEmail_fails E m with Some e => Throw e | None => Ok tt end,
     s, [SendEmail m]).
Proof. destruct m. reflexivity. Qed.

Lemma email_eta m :
  {| to := to m; subject := subject m; text := text m; html := html m |} = m.
Proof. destruct m. reflexivity. Qed.

Section SellerRun.
Variable E : env.
Variable kind : order_kind.
Variable event : value.
Variable index : nat.
Variable sellerId : value.

Lemma seller_resume_reads answer : reads (seller_resume E kind event index sellerId answer).
Proof.
  unfold seller_resume, fetchUserDetails_resume, console_error. footprint.
Qed.

(** The send is the last step of the callback: if it is refused, the
    callback rejects. *)
Lemma seller_resume_refused answer s m e :
  In (SendEmail m) (trace_of (seller_resume E kind event index sellerId answer s)) ->
  sendEmail_fails E m = Some e ->
  result_of (seller_resume E kind event index sellerId answer s) = Throw e.
Proof.
  unfold seller_resume, bind, lift.
  destruct (fetchUserDetails_resume_run sellerId answer s)
    as [logs [Hrun Hlogs]].
  rewrite Hrun.
  assert (Hno : ~ In (SendEmail m) logs).
  { intros Hin. clear Hrun. induction logs as [| x logs IH]; [ exact Hin | ].
    destruct x; simpl in Hlogs; try discriminate Hlogs;
      (destruct Hin as [Hin | Hin]; [ discriminate Hin | exact (IH Hlogs Hin) ]). }
  destruct (remainingQuantity_of kind event index) as [rq | e1];
    [ | simpl; rewrite app_nil_r; intros H; contradiction ].
  destruct (match answer with Ok (Some u) => Some u | _ => None end) as [u |];
    [ | simpl; rewrite app_nil_r; intros H; contradiction ].
  destruct (sellerEmail kind event index u rq) as [m' | e2];
    [ | simpl; rewrite app_nil_r; intros H; contradiction ].
  rewrite sendEmail_run. unfold trace_of, result_of. simpl.
  intros Hin Hfail. apply in_app_or in Hin.
  destruct Hin as [Hin | [Hin | []]]; [ contradiction | ].
  inversion Hin; subst m. rewrite Hfail. reflexivity.
Qed.
End SellerRun.

(** The fan-out never throws and leaves the store as it is; if one of its
    sends is refused, the join rejects. *)
Lemma seller_promises_run E kind event sellerIds :
  forall index answers s,
    exists promises t,
      seller_promises E kind event index sellerIds answers s
        = (Ok promises, s, t) /\
      forall m e,
        In (SendEmail m) t -> sendEmail_fails E m = Some e ->
        exists e', Promise_all promises = Throw e'.
Proof.
  induction sellerIds as [| sellerId rest IH]; intros index answers s; simpl.
  - exists [], []. split; [ reflexivity | intros m e [] ].
  - destruct answers as [| answer answers'].
    + exists [], []. split; [ reflexivity | intros m e [] ].
    + destruct (IH (S index) answers' s) as [promises [t2 [Hrest Hlater]]].
      pose proof (seller_resume_reads E kind event index sellerId answer s)
        as Hs.
      pose proof (seller_resume_refused E kind event index sellerId answer s)
        as Hfirst.
      unfold bind, settle, ret.
      destruct (seller_resume E kind event index sellerId answer s)
        as [[r s1] t1]. unfold store_of, trace_of, result_of in *.
      simpl in *. subst s1. rewrite Hrest.
      exists (r :: promises), (t1 ++ t2 ++ []). split; [ reflexivity | ].
      intros m e Hin Hfail. rewrite app_nil_r in Hin.
      apply in_app_or in Hin. destruct Hin as [Hin | Hin].
      * rewrite (Hfirst m e Hin Hfail). exists e. reflexivity.
      * destruct (Hlater m e Hin Hfail) as [e' He'].
        destruct r as [[] | e1]; [ exists e'; exact He' | exists e1; reflexivity ].
Qed.







Ltac sent_norm :=
  repeat first [ rewrite sent_app | rewrite sent_finds | progress cbn [sent] ].

(** ** The e-mails of an order whose values are printable *)

Section OrderRun.
Variable E : env.
Variable s : store.
Variable kind : order_kind.
Variable event : value.
Variable fields : list (string * value).
Variables titles quantities : list value.
Variable stock : nat -> value.
Hypothesis event_data : get_prop event "data" = Ok (VObj fields).
Hypothesis data_titles : assoc "titles" fields = Some (VArr titles).
Hypothesis data_quantities :
  assoc "quantities" fields = Some (VArr quantities).

Lemma sellerEmail_run index u rq :
  printable (u_username u) = true ->
  printable (nth index titles VUndef) = true ->
  printable (nth index quantities VUndef) = true ->
  printable (or_else rq (VStr "Unknown")) = true ->
  sellerEmail kind event index u rq =
    Ok (sellerMail kind u (nth index titles VUndef)
          (nth index quantities VUndef) rq).
Proof.
  intros Hname Htitle Hquantity Hstock. unfold sellerEmail.
  rewrite !(line_field_array event fields event_data "titles" titles index
              data_titles).
  rewrite (line_field_array event fields event_data "quantities" quantities
             index data_quantities).
  rewrite (printable_shown _ Hname). cbn [obind].
  rewrite (printable_shown _ Htitle). cbn [obind].
  rewrite (printable_shown _ Hquantity). cbn [obind].
  rewrite (printable_shown _ Hstock). cbn [obind].
  destruct kind; reflexivity.
Qed.

(** The callback of a line item whose values are printable: the seller
    is looked up, and if found is sent the e-mail of the line item. *)
Lemma seller_resume_trace index sellerId :
  remainingQuantity_of kind event index = Ok (stock index) ->
  (forall u, found (store_answer E s sellerId) = Some u ->
             printable (u_username u) = true) ->
  printable (nth index titles VUndef) = true ->
  printable (nth index quantities VUndef) = true ->
  printable (or_else (stock index) (VStr "Unknown")) = true ->
  seller_resume E kind event index sellerId (store_answer E s sellerId) s =
    match found (store_answer E s sellerId) with
    | Some u =>
        let m := sellerMail kind u (nth index titles VUndef)
                   (nth index quantities VUndef) (stock index) in
        (match sendEmail_fails E m with Some e => Throw e | None => Ok tt end,
         s, lookup_log sellerId (store_answer E s sellerId) ++ [SendEmail m])
    | None => (Ok tt, s, lookup_log sellerId (store_answer E s sellerId))
    end.
Proof.
  intros Hstock Hname Htitle Hquantity Hshown.
  unfold seller_resume, bind, lift.
  rewrite fetchUserDetails_resume_trace, Hstock.
  destruct (found (store_answer E s sellerId)) as [u |].
  - rewrite (sellerEmail_run index u (stock index) (Hname u eq_refl) Htitle
               Hquantity Hshown).
    rewrite (sendEmail_run E (sellerMail kind u (nth index titles VUndef)
                                (nth index quantities VUndef) (stock index))).
    cbv zeta. simpl. reflexivity.
  - unfold ret. simpl. rewrite !app_nil_r. reflexivity.
Qed.

Lemma line_mails_cons index sellerId rest :
  line_mails E s kind titles quantities stock index (sellerId :: rest) =
    match found (store_answer E s sellerId) with
    | Some u =>
        [ sellerMail kind u (nth index titles VUndef)
            (nth index quantities VUndef) (stock index) ]
    | None => []
    end ++ line_mails E s kind titles quantities stock (S index) rest.
Proof. simpl. destruct (store_answer E s sellerId) as [[u |] | e]; reflexivity. Qed.

Hypothesis data_stock :
  forall index, remainingQuantity_of kind event index = Ok (stock index).
Hypothesis printable_titles : forallb printable titles = true.
Hypothesis printable_quantities : forallb printable quantities = true.
Hypothesis printable_stock :
  forall index, printable (or_else (stock index) (VStr "Unknown")) = true.
Hypothesis printable_names : forallb named s = true.

Lemma found_named id u :
  found (store_answer E s id) = Some u -> printable (u_username u) = true.
Proof.
  intros H. apply (named_store E s id u printable_names).
  destruct (store_answer E s id) as [[u' |] | e]; try discriminate H.
  inversion H. reflexivity.
Qed.

(** Every callback runs to its end: the sends of the fan-out do not depend
    on what the provider answers; the join is fulfilled exactly when the
    provider accepts them all. *)
Lemma seller_promises_trace ids :
  forall index,
    let mails := line_mails E s kind titles quantities stock index ids in
    exists promises t,
      seller_promises E kind event index ids (map (store_answer E s) ids) s
        = (Ok promises, s, t) /\
      sent t = mails /\
      store_reads t = [] /\
      (forallb (accepts E) mails = true -> Promise_all promises = Ok tt) /\
      (forallb (accepts E) mails = false ->
       exists e, Promise_all promises = Throw e).
Proof.
  induction ids as [| sellerId rest IH]; intros index mails.
  - exists [], []. repeat split. intros H. discriminate H.
  - subst mails. rewrite line_mails_cons.
    destruct (IH (S index)) as [promises [t2 [Hrest [Hsent [Hreads [Hok Hko]]]]]].
    simpl seller_promises. unfold bind, settle, ret.
    rewrite (seller_resume_trace index sellerId (data_stock index)
               (found_named sellerId) (printable_nth _ printable_titles index)
               (printable_nth _ printable_quantities index)
               (printable_stock index)).
    destruct (lookup_log_silent sellerId (store_answer E s sellerId))
      as [Hlsent Hlreads].
    destruct (found (store_answer E s sellerId)) as [u |]; cbv zeta.
    + cbn [forallb app].
      set (m := sellerMail kind u (nth index titles VUndef)
                  (nth index quantities VUndef) (stock index)).
      assert (Hm : accepts E m =
                   match sendEmail_fails E m with
                   | Some _ => false
                   | None => true
                   end) by reflexivity.
      rewrite Hm.
      destruct (sendEmail_fails E m) as [e |]; cbv beta iota; rewrite Hrest;
        (eexists; eexists; split; [ reflexivity | ]);
        rewrite !sent_app, !store_reads_app, Hlsent, Hlreads, Hsent, Hreads;
        simpl; rewrite ?app_nil_r.
      * repeat split; try (intros H; discriminate H).
        intros _. exists e. reflexivity.
      * repeat split; assumption.
    + cbv beta iota. rewrite Hrest. eexists; eexists.
      split; [ reflexivity | ].
      rewrite !sent_app, !store_reads_app, Hlsent, Hlreads, Hsent, Hreads.
      simpl. rewrite ?app_nil_r. repeat split; assumption.
Qed.

Lemma listItems_run l :
  forallb printable l = true ->
  forall index,
    listItems kind event index l = Ok (order_items kind quantities index l).
Proof.
  induction l as [| title rest IH]; intros Hl index; simpl; [ reflexivity | ].
  simpl in Hl. apply andb_prop in Hl. destruct Hl as [Htitle Hrest].
  rewrite (printable_shown _ Htitle). cbn [obind].
  rewrite (line_field_array event fields event_data "quantities" quantities
             index data_quantities).
  cbn [obind].
  rewrite (printable_shown _ (printable_nth _ printable_quantities index)).
  cbn [obind]. rewrite (IH Hrest). cbn [obind].
  destruct kind; reflexivity.
Qed.

Lemma userEmail_run u :
  printable (u_username u) = true ->
  userEmail kind event u = Ok (userMail kind u titles quantities).
Proof.
  intros Hname.
  unfold userEmail. rewrite !(data_field_assoc event fields event_data).
  simpl field. rewrite data_titles. cbn [obind as_array].
  rewrite (listItems_run titles printable_titles 0). cbn [obind].
  rewrite (printable_shown _ Hname). cbn [obind].
  rewrite (array_join_listed titles printable_titles). cbn [obind].
  destruct kind; reflexivity.
Qed.

Variable sellerIds : list value.
Variable ty : value.
Hypothesis event_type : get_prop event "type" = Ok ty.
Hypothesis event_kind : order_kind_of ty = Some kind.
Hypothesis data_sellerIds : assoc "sellerIds" fields = Some (VArr sellerIds).

Lemma handleOrderEvents_mails :
  let mails := line_mails E s kind titles quantities stock 0 sellerIds in
  exists t,
    handleOrderEvents E event s = (Ok tt, s, t) /\
    sent t =
      mails ++ (if forallb (accepts E) mails
                then buyer_mails E s kind titles quantities
                       (field (VObj fields) "userId")
                else []).
Proof.
  intros mails.
  unfold handleOrderEvents, try_catch, bind at 1, lift.
  rewrite event_type, event_kind.
  unfold orderCase, orderFanOut, bind, lift, fetchUserDetails_call,
    User_findOne.
  rewrite !(data_field_assoc event fields event_data). simpl.
  rewrite data_sellerIds. simpl. rewrite seller_calls_run.
  set (userId := match assoc "userId" fields with
                 | Some x => x
                 | None => VUndef
                 end).
  rewrite fetchUserDetails_resume_trace.
  destruct (lookup_log_silent userId (store_answer E s userId))
    as [Hlsent Hlreads].
  destruct (seller_promises_trace sellerIds 0)
    as [promises [t [Hrun [Hsent [_ [Hok Hko]]]]]].
  rewrite Hrun. unfold ret. cbn [fst snd]. fold mails in Hsent, Hok, Hko.
  unfold buyer_mails.
  destruct (forallb (accepts E) mails).
  - rewrite (Hok eq_refl).
    pose proof (found_named userId) as Hnamed.
    destruct (store_answer E s userId) as [[u |] | e]; cbn [fst snd found].
    + rewrite (userEmail_run u (Hnamed u eq_refl)).
      rewrite !email_eta.
      destruct (sendEmail_fails E _); unfold console_error, emit; simpl;
        (eexists; split; [ reflexivity | ]);
        sent_norm; rewrite Hsent; simpl; rewrite ?app_nil_r; reflexivity.
    + simpl. eexists. split; [ reflexivity | ].
      sent_norm. rewrite Hsent. rewrite ?app_nil_r. reflexivity.
    + simpl. eexists. split; [ reflexivity | ].
      sent_norm. rewrite Hsent. rewrite ?app_nil_r. reflexivity.
  - destruct (Hko eq_refl) as [e He]. rewrite He.
    unfold console_error, emit. simpl.
    eexists. split; [ reflexivity | ].
    sent_norm. rewrite Hlsent, Hsent. simpl. rewrite ?app_nil_r.
    reflexivity.
Qed.
End OrderRun.



Section AllResolve.
Variable E : env.
Variable s : store.
Variable kind : order_kind.
Variables titles quantities : list value.
Variable stock : nat -> value.

End AllResolve.




(** ** The stock that an e-mail shows *)

Lemma shows_stock_remaining products productId :
  forallb shows_stock products = true ->
  printable (or_else (remaining_stock products productId) (VStr "Unknown"))
  = true.
Proof.
  intros H. apply printable_or_else. unfold remaining_stock.
  destruct (find _ products) as [product |] eqn:Hfind; [ | reflexivity ].
  apply find_some in Hfind. destruct Hfind as [Hin _].
  rewrite forallb_forall in H. specialize (H product Hin).
  unfold shows_stock in H. apply andb_prop in H. apply H.
Qed.

Lemma shows_stock_nth products index :
  forallb shows_stock products = true ->
  printable (or_else (nth index products VUndef) (VStr "Unknown")) = true.
Proof.
  intros H. apply printable_or_else.
  destruct (nth_in_or_default index products VUndef) as [Hin | Hdef].
  - rewrite forallb_forall in H. specialize (H _ Hin).
    unfold shows_stock in H. apply andb_prop in H. apply H.
  - rewrite Hdef. reflexivity.
Qed.

Lemma shown_stock_run kind event fields productIds products :
  get_prop event "data" = Ok (VObj fields) ->
  assoc "remainingQuantities" fields = Some (VArr products) ->
  kind = Deleted \/
  (assoc "productIds" fields = Some (VArr productIds) /\
   forallb is_record products = true) ->
  forall index,
    remainingQuantity_of kind event index =
      Ok (shown_stock kind products productIds index).
Proof.
  intros Hdata Hproducts Hkind index.
  destruct kind; simpl shown_stock;
    try apply (remainingQuantity_of_by_index event fields Hdata products
                 Hproducts);
    (destruct Hkind as [Hkind | [Hpids Hrec]]; [ discriminate Hkind | ]);
    apply (remainingQuantity_of_by_productId event fields Hdata productIds
             products Hpids Hproducts); try assumption; discriminate.
Qed.

Lemma shows_stock_shown kind products productIds index :
  forallb shows_stock products = true ->
  printable (or_else (shown_stock kind products productIds index)
               (VStr "Unknown")) = true.
Proof.
  intros H. destruct kind; simpl shown_stock;
    first [ apply shows_stock_remaining | apply shows_stock_nth ]; exact H.
Qed.


(* ===================================================================== *)
(** * The properties of the consumer *)
(* ===================================================================== *)




(** C2.  On a body that [JSON.parse] refuses, the callback of
    [consumeQueue] throws before its [try]: the handler does not run and
    nothing is written, but the message is neither rejected nor
    acknowledged. *)
Theorem undecodable_message_is_not_settled E queue handler msg s e :
  JSON_parse E (content msg) = Throw e ->
  let run := consumeQueue E queue handler msg s in
  result_of run = Throw e /\
  trace_of run = [] /\
  store_of run = s /\
  rejected msg (trace_of run) = false /\
  acked msg (trace_of run) = false.
Proof.
  intros H run. subst run. rewrite (consumeQueue_undecoded E queue handler msg s e H).
  repeat split.
Qed.

Lemma undecodable_message_is_not_settled_witness :
  let run :=
    consumeQueue healthy "auth_events" (handleAuthEvents healthy) (garbled 9)
      users in
  result_of run = Throw (Err "SyntaxError" "Unexpected token in JSON") /\
  trace_of run = [] /\
  store_of run = users /\
  rejected (garbled 9) (trace_of run) = false /\
  acked (garbled 9) (trace_of run) = false.
Proof.
  apply (undecodable_message_is_not_settled healthy "auth_events"
           (handleAuthEvents healthy) (garbled 9) users).
  vm_compute. reflexivity.
Defined.

(** C3.  Each of the four handlers that [initConsumer] subscribes catches
    its own errors and returns normally, whatever the store and the mail
    provider answer; so every message whose body decodes is acknowledged,
    and the [nack] branch of [consumeQueue] is never taken. *)
Theorem decoded_message_is_acked E queue handler :
  In (queue, handler) (initConsumer E) ->
  (forall event s, result_of (handler event s) = Ok tt) /\
  (forall msg event s,
      JSON_parse E (content msg) = Ok event ->
      let run := consumeQueue E queue handler msg s in
      result_of run = Ok tt /\
      acked msg (trace_of run) = true /\
      rejected msg (trace_of run) = false).
Proof.
  intros Hin. split; [ apply (handler_returns E queue handler Hin) | ].
  intros msg event s Hparse.
  apply (consumeQueue_acks E queue handler msg event s Hparse).
  - apply (handler_returns E queue handler Hin).
  - apply (handler_quiet E queue handler Hin).
Qed.

Lemma decoded_message_is_acked_witness :
  let msg := delivery (order_event "order_placed" stock_records) 7 in
  let run :=
    consumeQueue healthy "order_events_for_notifications"
      (handleOrderEvents healthy) msg users in
  result_of run = Ok tt /\
  acked msg (trace_of run) = true /\
  rejected msg (trace_of run) = false.
Proof.
  apply (proj2 (decoded_message_is_acked healthy
                  "order_events_for_notifications" (handleOrderEvents healthy)
                  (or_intror (or_introl eq_refl)))
               (delivery (order_event "order_placed" stock_records) 7)
               (order_event "order_placed" stock_records) users).
  vm_compute. reflexivity.
Defined.

(** C4 (as amended).  On the [user_data_sync] queue, a failure of the
    upsert is caught and logged by [syncUserData] itself: the store is left
    as it was, the handler returns normally and the message is
    acknowledged, not rejected. *)
Theorem sync_store_failure_is_acked E msg s event id e :
  JSON_parse E (content msg) = Ok event ->
  get_prop event "id" = Ok id ->
  findOneAndUpdate_fails E id = Some e ->
  let run := consumeQueue E "user_data_sync" (syncUserData E) msg s in
  run = (Ok tt, s,
         [ received "user_data_sync" event;
           StoreFindOneAndUpdate id (field event "username")
             (field event "email") (field event "role");
           ConsoleError "Error syncing user data:" (err_message e);
           ChannelAck (deliveryTag msg) ]) /\
  acked msg (trace_of run) = true /\
  rejected msg (trace_of run) = false.
Proof.
  intros Hparse Hid Hfail run.
  pose proof (destructure_get_prop event "event" "id" "id" id Hid) as Hd.
  apply get_prop_field in Hid. subst id.
  assert (Hrun : syncUserData E event s =
                 (Ok tt, s,
                  [ StoreFindOneAndUpdate (field event "id")
                      (field event "username") (field event "email")
                      (field event "role");
                    ConsoleError "Error syncing user data:" (err_message e) ])).
  { rewrite (syncUserData_run E event s Hd). cbv zeta. rewrite Hfail.
    reflexivity. }
  assert (Heq : run = (Ok tt, s,
         [ received "user_data_sync" event;
           StoreFindOneAndUpdate (field event "id") (field event "username")
             (field event "email") (field event "role");
           ConsoleError "Error syncing user data:" (err_message e);
           ChannelAck (deliveryTag msg) ])).
  { subst run.
    rewrite (consumeQueue_handled E "user_data_sync" (syncUserData E) msg s
               event Hparse); rewrite Hrun; reflexivity. }
  split; [ exact Heq | ]. rewrite Heq. unfold trace_of, acked, rejected.
  simpl. rewrite Nat.eqb_refl. split; reflexivity.
Qed.

Lemma sync_store_failure_is_acked_witness :
  let msg := delivery sync_event 4 in
  let run :=
    consumeQueue store_down "user_data_sync" (syncUserData store_down) msg
      users in
  acked msg (trace_of run) = true /\ rejected msg (trace_of run) = false.
Proof.
  apply (sync_store_failure_is_acked store_down (delivery sync_event 4) users
           sync_event (VStr "u1")
           (Err "MongoNetworkError" "connection refused"));
    vm_compute; reflexivity.
Defined.

(** C4, as stated, fails: the store refuses the upsert and the message is
    acknowledged, never rejected. *)
Lemma failed_upsert_is_not_rejected :
  let msg := delivery sync_event 4 in
  let run :=
    consumeQueue store_down "user_data_sync" (syncUserData store_down) msg [] in
  findOneAndUpdate_fails store_down (VStr "u1") <> None /\
  trace_of (syncUserData store_down sync_event []) =
    [ StoreFindOneAndUpdate (VStr "u1") (VStr "a") (VStr "a@x") (VStr "seller");
      ConsoleError "Error syncing user data:" "connection refused" ] /\
  result_of run = Ok tt /\
  rejected msg (trace_of run) = false /\
  acked msg (trace_of run) = true.
Proof.
  vm_compute. repeat split. discriminate.
Qed.

(** C5.  With [productIds = ["p1", "p2"]] and one stock record, for [p2],
    the seller e-mails of [order_placed] show "Unknown" for item 0 and 5 for
    item 1, by product id; those of [order_deleted] take the record at the
    position of the item: item 0 shows the record itself, printed as
    "[object Object]", and item 1 shows "Unknown". *)
Theorem order_deleted_shows_the_record_at_the_index :
  let run type :=
    consumeQueue healthy "order_events_for_notifications"
      (handleOrderEvents healthy) (delivery (order_event type stock_records) 1)
      users in
  map html (firstn 2 (sent (trace_of (run "order_deleted")))) =
    [ sellerMessageDeleted "alice" "Book" "1" "[object Object]";
      sellerMessageDeleted "bob" "Pen" "2" "Unknown" ] /\
  map html (firstn 2 (sent (trace_of (run "order_placed")))) =
    [ sellerMessagePlaced "alice" "Book" "1" "Unknown";
      sellerMessagePlaced "bob" "Pen" "2" "5" ].
Proof. split; vm_compute; reflexivity. Qed.




(** C7.  Applying the same [user_data_sync] event twice: the second
    application leaves the store as the first one made it, with exactly one
    record of that id, holding the [username], [email] and [role] of the
    event. *)
Theorem syncUserData_idempotent E s event id :
  get_prop event "id" = Ok id ->
  findOneAndUpdate_fails E id = None ->
  records_of id s <= 1 ->
  let s1 := store_of (syncUserData E event s) in
  let s2 := store_of (syncUserData E event s1) in
  s2 = s1 /\
  records_of id s1 = 1 /\
  exists u,
    store_find id s1 = Some u /\
    u_username u = field event "username" /\
    u_email u = field event "email" /\
    u_role u = field event "role".
Proof.
  intros Hid Hok Hone s1 s2. subst s1 s2.
  pose proof (destructure_get_prop event "event" "id" "id" id Hid) as Hd.
  apply get_prop_field in Hid. subst id.
  rewrite !(syncUserData_run E event _ Hd). cbv zeta. rewrite Hok.
  unfold store_of. simpl. split; [ apply store_upsert_twice | ].
  split.
  - rewrite records_of_upsert. lia.
  - destruct (store_find_upsert (field event "id") (field event "username")
                (field event "email") (field event "role") s)
      as [u [Hu [_ Hfields]]].
    exists u. split; [ exact Hu | exact Hfields ].
Qed.

Lemma syncUserData_idempotent_witness :
  let s1 := store_of (syncUserData healthy sync_event []) in
  let s2 := store_of (syncUserData healthy sync_event s1) in
  s2 = s1 /\
  records_of (VStr "u1") s1 = 1 /\
  exists u,
    store_find (VStr "u1") s1 = Some u /\
    u_username u = VStr "a" /\ u_email u = VStr "a@x" /\
    u_role u = VStr "seller".
Proof.
  apply (syncUserData_idempotent healthy [] sync_event (VStr "u1")).
  - reflexivity.
  - reflexivity.
  - vm_compute. lia.
Defined.

(** C8.  For an event whose [type] is none of those its queue's handler
    acts on, the handler sends no e-mail and calls the store neither to
    read nor to write, and the message is acknowledged. *)
Theorem unrecognized_type_is_acked_without_action E queue handler types :
  In (queue, handler) (initConsumer E) ->
  In (queue, types) recognized_types ->
  forall msg event s,
    JSON_parse E (content msg) = Ok event ->
    (forall t, In t types -> get_prop event "type" <> Ok (VStr t)) ->
    let run := consumeQueue E queue handler msg s in
    result_of run = Ok tt /\
    store_of run = s /\
    no_action (trace_of run) = true /\
    acked msg (trace_of run) = true /\
    rejected msg (trace_of run) = false.
Proof.
  intros Hin Htypes msg event s Hparse Hother run.
  pose proof (handler_returns E queue handler Hin) as Hret.
  pose proof (fun msg event s Hparse =>
                consumeQueue_acks E queue handler msg event s Hparse
                  (Hret event s) (handler_quiet E queue handler Hin event s))
    as Hack.
  destruct (Hack msg event s Hparse) as [Hres [Hacked Hrej]].
  fold run in Hres, Hacked, Hrej.
  split; [ exact Hres | ].
  assert (Hquiet : exists t, handler event s = (Ok tt, s, t)
                             /\ no_action t = true).
  { simpl in Hin, Htypes.
    repeat (destruct Hin as [Hin | Hin]; [ inversion Hin; subst; clear Hin | ]);
      try contradiction;
      repeat (destruct Htypes as [Htypes | Htypes];
              [ inversion Htypes; subst; clear Htypes | ]);
      try contradiction.
    - apply handleProductEvents_unknown. exact Hother.
    - apply handleOrderEvents_unknown. exact Hother.
    - apply handleAuthEvents_unknown. exact Hother. }
  destruct Hquiet as [t [Hrun Hno]].
  subst run.
  rewrite (consumeQueue_handled E queue handler msg s event Hparse (Hret event s))
    in *.
  rewrite Hrun in *. unfold store_of, trace_of in *. simpl in *.
  repeat split; try assumption.
  unfold no_action in *. rewrite forallb_app, Hno. reflexivity.
Qed.

Lemma unrecognized_type_is_acked_without_action_witness :
  let msg := delivery ping_event 5 in
  let run :=
    consumeQueue healthy "order_events_for_notifications"
      (handleOrderEvents healthy) msg users in
  result_of run = Ok tt /\
  store_of run = users /\
  no_action (trace_of run) = true /\
  acked msg (trace_of run) = true /\
  rejected msg (trace_of run) = false.
Proof.
  apply (unrecognized_type_is_acked_without_action healthy
           "order_events_for_notifications" (handleOrderEvents healthy)
           ["order_placed"; "order_updated"; "order_deleted"]
           (or_intror (or_introl eq_refl)) (or_intror (or_introl eq_refl))
           (delivery ping_event 5) ping_event users).
  - vm_compute. reflexivity.
  - intros t Hin. simpl in Hin.
    destruct Hin as [<- | [<- | [<- | []]]]; vm_compute; discriminate.
Defined.

(** C9.  [syncUserData] takes [id], [username], [email] and [role] from
    the top level of the decoded object; on a [{type, data}] envelope the
    upsert is keyed by [undefined] and writes three [undefined] fields,
    whatever [data] holds. *)
Theorem syncUserData_reads_top_level :
  (forall E s fields,
      exists rest,
        trace_of (syncUserData E (VObj fields) s) =
          StoreFindOneAndUpdate
            (field (VObj fields) "id") (field (VObj fields) "username")
            (field (VObj fields) "email") (field (VObj fields) "role")
          :: rest) /\
  (forall E s ty data,
      exists rest,
        trace_of (syncUserData E (VObj [("type", ty); ("data", data)]) s) =
          StoreFindOneAndUpdate VUndef VUndef VUndef VUndef :: rest).
Proof.
  split.
  - intros E s fields.
    rewrite (syncUserData_run E (VObj fields) s eq_refl). cbv zeta.
    destruct (findOneAndUpdate_fails E (field (VObj fields) "id"));
      eexists; reflexivity.
  - intros E s ty data.
    rewrite (syncUserData_run E (VObj [("type", ty); ("data", data)]) s
               eq_refl). cbv zeta.
    change (field (VObj [("type", ty); ("data", data)]) "id") with VUndef.
    destruct (findOneAndUpdate_fails E VUndef); eexists; reflexivity.
Qed.



(* ===================================================================== *)
(** * Further properties of the consumer *)
(* ===================================================================== *)

(** ** consumeQueue *)

(** X1.  For a decoded message and any handler that leaves the channel
    alone, [consumeQueue] settles the message exactly once: it
    acknowledges if the handler returns, and if the handler throws it logs
    the message of the error and rejects with [allUpTo] and [requeue]
    false.  The callback itself never throws, and the store is as the
    handler left it. *)
Theorem consumeQueue_settles_once E queue handler msg event s :
  JSON_parse E (content msg) = Ok event ->
  forallb quiet (trace_of (handler event s)) = true ->
  let run := consumeQueue E queue handler msg s in
  let tag := deliveryTag msg in
  result_of run = Ok tt /\
  store_of run = store_of (handler event s) /\
  filter is_channel (trace_of run) =
    match result_of (handler event s) with
    | Ok _ => [ChannelAck tag]
    | Throw _ => [ChannelNack tag false false]
    end /\
  forall e,
    result_of (handler event s) = Throw e ->
    In (ConsoleError ("Error handling event from " ++ queue ++ ":")%string
          (err_message e))
       (trace_of run).
Proof.
  intros Hparse Hquiet run tag. subst run tag.
  unfold trace_of in Hquiet.
  destruct (result_of (handler event s)) as [[] | e] eqn:Hres.
  - rewrite (consumeQueue_handled E queue handler msg s event Hparse Hres).
    unfold result_of, store_of, trace_of. simpl.
    repeat split.
    + rewrite filter_app, (quiet_no_channel _ Hquiet). reflexivity.
    + intros e He. discriminate He.
  - rewrite (consumeQueue_failed E queue handler msg s event e Hparse Hres).
    unfold result_of, store_of, trace_of. simpl.
    repeat split.
    + rewrite filter_app, (quiet_no_channel _ Hquiet). reflexivity.
    + intros e' He'. inversion He'; subst e'. right.
      apply in_or_app. right. left. reflexivity.
Qed.

Lemma consumeQueue_settles_once_witness :
  let msg := delivery ping_event 6 in
  let run := consumeQueue healthy "auth_events" throwing_handler msg users in
  filter is_channel (trace_of run) = [ChannelNack 6 false false].
Proof.
  apply (consumeQueue_settles_once healthy "auth_events" throwing_handler
           (delivery ping_event 6) ping_event users).
  - vm_compute. reflexivity.
  - reflexivity.
Defined.

(** X16.  On each of the four queues, a decoded message is settled exactly
    once, by an acknowledgement: none of the handlers calls [ack] or [nack]
    itself, and [consumeQueue] calls [ack] once and [nack] never. *)
Theorem subscriptions_ack_exactly_once E queue handler :
  In (queue, handler) (initConsumer E) ->
  forall msg event s,
    JSON_parse E (content msg) = Ok event ->
    filter is_channel (trace_of (handler event s)) = [] /\
    filter is_channel (trace_of (consumeQueue E queue handler msg s)) =
      [ChannelAck (deliveryTag msg)].
Proof.
  intros Hin msg event s Hparse.
  pose proof (quiet_no_channel _ (handler_quiet E queue handler Hin event s))
    as Hquiet.
  split; [ exact Hquiet | ].
  rewrite (consumeQueue_handled E queue handler msg s event Hparse
             (handler_returns E queue handler Hin event s)).
  unfold trace_of in Hquiet |- *. simpl.
  rewrite filter_app, Hquiet. reflexivity.
Qed.

Lemma subscriptions_ack_exactly_once_witness :
  let msg := delivery sync_event 8 in
  filter is_channel
    (trace_of (consumeQueue store_down "user_data_sync"
                 (syncUserData store_down) msg users)) = [ChannelAck 8].
Proof.
  apply (subscriptions_ack_exactly_once store_down "user_data_sync"
           (syncUserData store_down)
           (or_intror (or_intror (or_intror (or_introl eq_refl))))
           (delivery sync_event 8) sync_event users).
  vm_compute. reflexivity.
Defined.

(** ** fetchUserDetails *)

(** X2.  [fetchUserDetails] never throws and leaves the store as it is.
    It reads the store exactly once, for the id it is given, and sends
    nothing.  It yields the record when the read succeeds and finds one;
    when the read fails or finds nothing it yields [null] and logs one
    line, with the message of the error or with "User with ID ... not
    found". *)
Theorem fetchUserDetails_never_throws E userId s :
  let run := fetchUserDetails E userId s in
  let answer := store_answer E s userId in
  result_of run = Ok (found answer) /\
  store_of run = s /\
  store_reads (trace_of run) = [userId] /\
  sent (trace_of run) = [] /\
  trace_of run = StoreFindOne userId :: lookup_log userId answer /\
  (found answer = None <-> lookup_log userId answer <> []).
Proof.
  intros run answer. subst run answer.
  rewrite fetchUserDetails_trace. unfold result_of, store_of, trace_of.
  simpl. destruct (lookup_log_silent userId (store_answer E s userId))
    as [Hsent Hreads].
  rewrite Hsent, Hreads. repeat split; try reflexivity.
  - destruct (store_answer E s userId) as [[u |] | e]; simpl;
      intros H; try discriminate; congruence.
  - destruct (store_answer E s userId) as [[u |] | e]; simpl;
      intros H; try reflexivity. congruence.
Qed.

(** ** handleAuthEvents *)

(** X3.  On [user_created] with a readable [data.userId], the handler
    reads the store once, for that id, and sends the welcome e-mail to the
    address of the record if the lookup yields one; if the lookup yields
    nothing, or the read fails, it sends no e-mail.  Either way it returns
    normally, also when the provider refuses the e-mail, and the store is
    left as it is. *)
Theorem user_created_sends_welcome E event userId s :
  get_prop event "type" = Ok (VStr "user_created") ->
  data_field event "userId" = Ok userId ->
  let run := handleAuthEvents E event s in
  result_of run = Ok tt /\
  store_of run = s /\
  store_reads (trace_of run) = [userId] /\
  sent (trace_of run) =
    match found (store_answer E s userId) with
    | Some u => [welcomeMail u]
    | None => []
    end.
Proof.
  intros Hty Hid run. subst run.
  unfold handleAuthEvents, try_catch, bind, lift, console_log, console_error,
    emit.
  rewrite Hty.
  change (strict_eq (VStr "user_created") (VStr "user_created")) with true.
  cbv beta iota. rewrite Hid.
  rewrite fetchUserDetails_trace.
  destruct (lookup_log_silent userId (store_answer E s userId))
    as [Hsent Hreads].
  destruct (found (store_answer E s userId)) as [u |].
  - unfold sendEmail. fold (welcomeMail u).
    destruct (sendEmail_fails E (welcomeMail u));
      unfold result_of, store_of, trace_of; simpl;
      rewrite ?store_reads_app, ?sent_app, Hsent, Hreads; repeat split.
  - unfold ret, result_of, store_of, trace_of. simpl.
    rewrite ?store_reads_app, ?sent_app, Hsent, Hreads. repeat split.
Qed.

Lemma user_created_sends_welcome_witness :
  let event := VObj [("type", VStr "user_created");
                     ("data", VObj [("userId", VStr "u1")])] in
  sent (trace_of (handleAuthEvents healthy event users)) = [welcomeMail carol].
Proof.
  apply (user_created_sends_welcome healthy
           (VObj [("type", VStr "user_created");
                  ("data", VObj [("userId", VStr "u1")])])
           (VStr "u1") users); reflexivity.
Defined.

(** X4.  On [user_created] without a [data] payload, reading
    [event.data.userId] throws; the handler catches the [TypeError] and
    logs it: the store is not read, no e-mail is sent, and the handler
    returns normally. *)
Theorem user_created_without_data E event e s :
  get_prop event "type" = Ok (VStr "user_created") ->
  data_field event "userId" = Throw e ->
  handleAuthEvents E event s =
    (Ok tt, s,
     [ ConsoleLog "Auth event received:" [event];
       ConsoleError "Error handling auth event:" (err_message e) ]).
Proof.
  intros Hty Hid.
  unfold handleAuthEvents, try_catch, bind, lift, console_log, console_error,
    emit.
  rewrite Hty.
  change (strict_eq (VStr "user_created") (VStr "user_created")) with true.
  cbv beta iota. rewrite Hid. reflexivity.
Qed.

Lemma user_created_without_data_witness :
  no_action (trace_of (handleAuthEvents healthy
                         (VObj [("type", VStr "user_created")]) users))
  = true.
Proof.
  rewrite (user_created_without_data healthy
             (VObj [("type", VStr "user_created")])
             (cannot_read VUndef "userId") users eq_refl eq_refl).
  reflexivity.
Defined.

(** ** handleProductEvents *)

Lemma when_type_runs event t block s :
  get_prop event "type" = Ok (VStr t) ->
  when_type event t block s = block s.
Proof.
  intros Hty. unfold when_type, bind, lift. rewrite Hty. unfold strict_eq.
  rewrite String.eqb_refl. destruct (block s) as [[r s1] t1]. reflexivity.
Qed.

Lemma when_type_other event t t' block s :
  get_prop event "type" = Ok (VStr t) ->
  String.eqb t t' = false ->
  when_type event t' block s = (Ok tt, s, []).
Proof.
  intros Hty Hne. unfold when_type, bind, lift. rewrite Hty. unfold strict_eq.
  rewrite Hne. reflexivity.
Qed.

Lemma handleProductEvents_block E kind event s :
  get_prop event "type" = Ok (VStr (product_type kind)) ->
  handleProductEvents E event s =
    try_catch (product_block E kind event)
      (fun error =>
         console_error "Error handling product event:" (err_message error)) s.
Proof.
  intros Hty. unfold handleProductEvents, try_catch.
  assert (Hrun :
    bind (when_type event "product_created" (productCreated E event))
      (fun _ =>
         bind (when_type event "product_updated" (productUpdated E event))
           (fun _ =>
              when_type event "product_deleted" (productDeleted E event))) s
    = product_block E kind event s).
  { unfold bind at 1 2.
    destruct kind; simpl product_type in Hty; simpl product_block.
    - rewrite (when_type_runs event _ _ s Hty).
      destruct (productCreated E event s) as [[[[] | e] s1] t1];
        [ | reflexivity ].
      rewrite (when_type_other event _ "product_updated" _ s1 Hty eq_refl).
      rewrite (when_type_other event _ "product_deleted" _ s1 Hty eq_refl).
      simpl. rewrite app_nil_r. reflexivity.
    - rewrite (when_type_other event _ "product_created" _ s Hty eq_refl).
      rewrite (when_type_runs event _ _ s Hty).
      destruct (productUpdated E event s) as [[[[] | e] s1] t1];
        [ | reflexivity ].
      rewrite (when_type_other event _ "product_deleted" _ s1 Hty eq_refl).
      simpl. rewrite app_nil_r. reflexivity.
    - rewrite (when_type_other event _ "product_created" _ s Hty eq_refl).
      rewrite (when_type_other event _ "product_updated" _ s Hty eq_refl).
      rewrite (when_type_runs event _ _ s Hty).
      destruct (productDeleted E event s) as [[[[] | e] s1] t1]; reflexivity. }
  rewrite Hrun. reflexivity.
Qed.

Lemma product_block_run E kind event data sellerId s :
  get_prop event "data" = Ok data ->
  nullish data = false ->
  seller_id data = Ok sellerId ->
  forallb (fun k => printable (field data k)) (product_fields kind) = true ->
  (forall u, found (store_answer E s sellerId) = Some u ->
             printable (u_username u) = true) ->
  product_block E kind event s =
    match found (store_answer E s sellerId) with
    | Some u =>
        (match sendEmail_fails E (productMail E kind data u) with
         | Some e => Throw e
         | None => Ok tt
         end, s,
         StoreFindOne sellerId
           :: lookup_log sellerId (store_answer E s sellerId)
           ++ [SendEmail (productMail E kind data u)])
    | None =>
        (Ok tt, s,
         StoreFindOne sellerId
           :: lookup_log sellerId (store_answer E s sellerId))
    end.
Proof.
  intros Hdata Hnull Hseller Hprint Hname.
  assert (Hd : destructure data "event.data" "title" = Ok data).
  { destruct data; try discriminate Hnull; reflexivity. }
  destruct kind; simpl product_block;
    unfold productCreated, productUpdated, productDeleted, bind, lift;
    rewrite Hdata, Hd, Hseller, fetchUserDetails_trace;
    (destruct (found (store_answer E s sellerId)) as [u |];
     [ | unfold ret; simpl; rewrite ?app_nil_r; reflexivity ]);
    specialize (Hname u eq_refl);
    simpl in Hprint;
    repeat (apply andb_prop in Hprint; destruct Hprint as [? Hprint]);
    unfold interpolate, new_Date;
    repeat match goal with
           | H : printable ?v = true |- _ =>
               rewrite (printable_shown v H); clear H
           end;
    unfold sendEmail; simpl; rewrite ?app_nil_r; reflexivity.
Qed.

(** X5.  On [product_created], [product_updated] or [product_deleted] with
    a payload that has a [seller] and whose shown properties can each be
    converted to a string, exactly one of the three blocks runs: the
    handler reads the store once, for [data.seller.id], and sends the
    e-mail of that event to the address of the seller if the lookup yields
    a record (whose name can be shown), and no e-mail otherwise.  It
    returns normally, also when the provider refuses the e-mail, and the
    store is left as it is. *)
Theorem product_event_notifies_seller E kind event data sellerId s :
  get_prop event "type" = Ok (VStr (product_type kind)) ->
  get_prop event "data" = Ok data ->
  nullish data = false ->
  seller_id data = Ok sellerId ->
  forallb (fun k => printable (field data k)) (product_fields kind) = true ->
  (forall u, found (store_answer E s sellerId) = Some u ->
             printable (u_username u) = true) ->
  let run := handleProductEvents E event s in
  result_of run = Ok tt /\
  store_of run = s /\
  store_reads (trace_of run) = [sellerId] /\
  sent (trace_of run) =
    match found (store_answer E s sellerId) with
    | Some u => [productMail E kind data u]
    | None => []
    end.
Proof.
  intros Hty Hdata Hnull Hseller Hprint Hname run. subst run.
  rewrite (handleProductEvents_block E kind event s Hty).
  unfold try_catch.
  rewrite (product_block_run E kind event data sellerId s Hdata Hnull Hseller
             Hprint Hname).
  destruct (lookup_log_silent sellerId (store_answer E s sellerId))
    as [Hsent Hreads].
  destruct (found (store_answer E s sellerId)) as [u |].
  - destruct (sendEmail_fails E (productMail E kind data u));
      unfold console_error, emit, result_of, store_of, trace_of; simpl;
      rewrite ?store_reads_app, ?sent_app, Hsent, Hreads; repeat split.
  - unfold result_of, store_of, trace_of. simpl.
    rewrite Hsent, Hreads. repeat split.
Qed.

Lemma product_event_notifies_seller_witness :
  let data := VObj [("title", VStr "Book"); ("description", VStr "A book");
                    ("price", VNum "19.99"); ("quantity", VNum "3");
                    ("category", VStr "books");
                    ("seller", VObj [("id", VStr "s1")])] in
  let event := VObj [("type", VStr "product_updated"); ("data", data)] in
  sent (trace_of (handleProductEvents healthy event users)) =
    [ {| to := VStr "alice@shop.example";
         subject := "Product Updated Successfully";
         text := ("Your product " ++ dq ++ "Book" ++ dq
                  ++ " has been successfully updated!")%string;
         html := productUpdatedBody "alice" "Book" "A book" "books" "19.99"
                   "3" |} ].
Proof.
  apply (product_event_notifies_seller healthy ProductUpdated
           (VObj [("type", VStr "product_updated");
                  ("data",
                   VObj [("title", VStr "Book"); ("description", VStr "A book");
                         ("price", VNum "19.99"); ("quantity", VNum "3");
                         ("category", VStr "books");
                         ("seller", VObj [("id", VStr "s1")])])])
           (VObj [("title", VStr "Book"); ("description", VStr "A book");
                  ("price", VNum "19.99"); ("quantity", VNum "3");
                  ("category", VStr "books");
                  ("seller", VObj [("id", VStr "s1")])])
           (VStr "s1") users); try reflexivity.
  intros u Hu. vm_compute in Hu. inversion Hu. reflexivity.
Defined.

(** X6.  On a product event whose payload is absent, or has no [seller],
    the destructuring or the read of [seller.id] throws; the handler
    catches the [TypeError] and logs it: the store is not read, no e-mail
    is sent, and the handler returns normally. *)
Theorem product_event_without_seller E kind event data s :
  get_prop event "type" = Ok (VStr (product_type kind)) ->
  get_prop event "data" = Ok data ->
  nullish data = true \/ nullish (field data "seller") = true ->
  exists e,
    handleProductEvents E event s =
      (Ok tt, s,
       [ConsoleError "Error handling product event:" (err_message e)]).
Proof.
  intros Hty Hdata Hnull.
  rewrite (handleProductEvents_block E kind event s Hty).
  unfold try_catch.
  assert (Hrun : exists e, product_block E kind event s = (Throw e, s, [])).
  { destruct (destructure data "event.data" "title") as [d | e] eqn:Hd.
    - assert (d = data) by (destruct data; inversion Hd; reflexivity).
      subst d.
      assert (Hseller : exists e, seller_id data = Throw e).
      { destruct Hnull as [Hnull | Hnull].
        - destruct data; discriminate.
        - unfold seller_id. destruct (field data "seller");
            try discriminate Hnull; eexists; reflexivity. }
      destruct Hseller as [e He]. exists e.
      destruct kind; simpl product_block;
        unfold productCreated, productUpdated, productDeleted, bind, lift;
        rewrite Hdata, Hd, He; reflexivity.
    - exists e.
      destruct kind; simpl product_block;
        unfold productCreated, productUpdated, productDeleted, bind, lift;
        rewrite Hdata, Hd; reflexivity. }
  destruct Hrun as [e Hrun]. exists e. rewrite Hrun. reflexivity.
Qed.

Lemma product_event_without_seller_witness :
  exists e,
    handleProductEvents healthy
      (VObj [("type", VStr "product_deleted");
             ("data", VObj [("title", VStr "Book")])]) users =
      (Ok tt, users,
       [ConsoleError "Error handling product event:" (err_message e)]).
Proof.
  apply (product_event_without_seller healthy ProductDeleted
           (VObj [("type", VStr "product_deleted");
                  ("data", VObj [("title", VStr "Book")])])
           (VObj [("title", VStr "Book")]) users).
  - reflexivity.
  - reflexivity.
  - right. reflexivity.
Defined.

(** ** Which handler touches what *)

Lemma reads_seller_calls E sellerIds : reads (seller_calls E sellerIds).
Proof.
  induction sellerIds as [| sellerId rest IH]; simpl; open_handlers;
    footprint.
Qed.

Lemma reads_seller_promises E kind event sellerIds :
  forall index answers,
    reads (seller_promises E kind event index sellerIds answers).
Proof.
  induction sellerIds as [| sellerId rest IH]; intros index answers;
    simpl; [ footprint | ].
  destruct answers as [| answer answers']; [ footprint | ].
  apply reads_bind; [ | intros r; apply reads_bind; [ apply IH | footprint ] ].
  apply reads_settle, seller_resume_reads.
Qed.

Lemma reads_handleOrderEvents E event : reads (handleOrderEvents E event).
Proof.
  pose proof reads_seller_calls. pose proof reads_seller_promises.
  open_handlers. footprint.
Qed.

Lemma reads_handleProductEvents E event : reads (handleProductEvents E event).
Proof. open_handlers. footprint. Qed.

Lemma reads_handleAuthEvents E event : reads (handleAuthEvents E event).
Proof. open_handlers. footprint. Qed.

(** X7.  The handlers of the product, order and auth queues never write to
    the store: whatever the event and whatever the collaborators answer,
    they leave the store as it is and never call [findOneAndUpdate]; and
    they return normally. *)
Theorem notification_handlers_never_write E queue handler :
  In (queue, handler) (initConsumer E) ->
  queue <> "user_data_sync" ->
  forall event s,
    let run := handler event s in
    result_of run = Ok tt /\
    store_of run = s /\
    filter is_upsert (trace_of run) = [].
Proof.
  intros Hin Hqueue event s run. subst run.
  split; [ apply (handler_returns E queue handler Hin) | ].
  assert (Hno : forall t, forallb (fun e => negb (is_upsert e)) t = true ->
                          filter is_upsert t = []).
  { induction t as [| e t IH]; simpl; [ reflexivity | ].
    intros H. apply andb_prop in H. destruct H as [He Ht].
    destruct (is_upsert e); [ discriminate He | apply IH; exact Ht ]. }
  simpl in Hin.
  destruct Hin as [Hin | [Hin | [Hin | [Hin | []]]]]; inversion Hin; subst.
  - split; [ apply reads_handleProductEvents | ].
    apply Hno. apply emits_handleProductEvents; intros; reflexivity.
  - split; [ apply reads_handleOrderEvents | ].
    apply Hno. apply emits_handleOrderEvents; intros; reflexivity.
  - split; [ apply reads_handleAuthEvents | ].
    apply Hno. apply emits_handleAuthEvents; intros; reflexivity.
  - contradiction Hqueue. reflexivity.
Qed.

Lemma notification_handlers_never_write_witness :
  store_of (handleOrderEvents healthy
              (order_event "order_placed" stock_records) users) = users.
Proof.
  apply (notification_handlers_never_write healthy
           "order_events_for_notifications" (handleOrderEvents healthy)
           (or_intror (or_introl eq_refl))).
  discriminate.
Defined.

(** ** syncUserData *)

(** X8.  [syncUserData] sends no e-mail and never reads the store.  On an
    event that is [null] it makes no store call at all and leaves the store
    as it is (the [TypeError] of the destructuring is caught and logged);
    on any other event it calls [findOneAndUpdate] exactly once, keyed by
    the [id] of the event, and the store changes only if that call
    succeeds. *)
Theorem syncUserData_calls E event s :
  let run := syncUserData E event s in
  let call :=
    StoreFindOneAndUpdate (field event "id") (field event "username")
      (field event "email") (field event "role") in
  result_of run = Ok tt /\
  sent (trace_of run) = [] /\
  store_reads (trace_of run) = [] /\
  filter is_upsert (trace_of run) = (if nullish event then [] else [call]) /\
  (nullish event = true \/ findOneAndUpdate_fails E (field event "id") <> None
   -> store_of run = s).
Proof.
  intros run call. subst run call.
  destruct (destructure event "event" "id") as [ev | e] eqn:Hd.
  - assert (ev = event) by (destruct event; inversion Hd; reflexivity).
    subst ev.
    assert (Hnull : nullish event = false)
      by (destruct event; try discriminate Hd; reflexivity).
    rewrite (syncUserData_run E event s Hd). cbv zeta. rewrite Hnull.
    destruct (findOneAndUpdate_fails E (field event "id")) as [e |];
      [ | destruct (to_string (field event "id")) ];
      unfold result_of, store_of, trace_of; simpl; repeat split;
      intros [H | H]; [ discriminate H | contradiction H; reflexivity
                      | discriminate H | contradiction H; reflexivity ].
  - assert (Hnull : nullish event = true)
      by (destruct event; try discriminate Hd; reflexivity).
    unfold syncUserData, try_catch, bind, lift. rewrite Hd, Hnull.
    repeat split.
Qed.

(** ** handleOrderEvents *)

(** X9.  For an order event of any of the three types whose payload follows
    the data model and whose titles, quantities, stock records and user
    names can be shown, the e-mails sent are: one seller e-mail for each
    line item whose seller the store finds (a seller that is not found, or
    whose read fails, is skipped and does not fail the event), whatever the
    provider answers to the others and in whatever order the callbacks send
    them; then, only if the provider accepted every seller e-mail, the
    buyer's summary if the store finds the buyer.  The handler returns
    normally and leaves the store as it is. *)
Theorem order_event_mails
    E s event ty kind fields sellerIds productIds titles quantities products :
  get_prop event "type" = Ok ty ->
  order_kind_of ty = Some kind ->
  get_prop event "data" = Ok (VObj fields) ->
  assoc "sellerIds" fields = Some (VArr sellerIds) ->
  assoc "titles" fields = Some (VArr titles) ->
  assoc "quantities" fields = Some (VArr quantities) ->
  assoc "remainingQuantities" fields = Some (VArr products) ->
  kind = Deleted \/
  (assoc "productIds" fields = Some (VArr productIds) /\
   forallb is_record products = true) ->
  forallb printable titles = true ->
  forallb printable quantities = true ->
  forallb shows_stock products = true ->
  forallb named s = true ->
  let run := handleOrderEvents E event s in
  let seller_mails :=
    line_mails E s kind titles quantities
      (shown_stock kind products productIds) 0 sellerIds in
  result_of run = Ok tt /\
  store_of run = s /\
  exists sent_to_sellers,
    Permutation sent_to_sellers seller_mails /\
    sent (trace_of run) =
      sent_to_sellers
        ++ (if forallb (accepts E) seller_mails
            then buyer_mails E s kind titles quantities
                   (field (VObj fields) "userId")
            else []).
Proof.
  intros Hty Hkind Hdata Hsellers Htitles Hquantities Hproducts Hstock
    Hptitles Hpquantities Hshows Hnamed run seller_mails.
  subst run seller_mails.
  destruct (handleOrderEvents_mails E s kind event fields titles quantities
              (shown_stock kind products productIds) Hdata Htitles
              Hquantities
              (shown_stock_run kind event fields productIds products Hdata
                 Hproducts Hstock)
              Hptitles Hpquantities
              (fun index =>
                 shows_stock_shown kind products productIds index Hshows)
              Hnamed sellerIds ty Hty Hkind Hsellers) as [t [Hrun Hsent]].
  rewrite Hrun. unfold result_of, store_of, trace_of. simpl.
  repeat split. eexists. split; [ apply Permutation_refl | exact Hsent ].
Qed.

Lemma order_event_mails_witness :
  let event := order_event "order_deleted" [VNum "4"; VNum "0"] in
  (exists sent_to_sellers,
      Permutation sent_to_sellers
        [ sellerMail Deleted alice (VStr "Book") (VNum "1") (VNum "4");
          sellerMail Deleted bob (VStr "Pen") (VNum "2") (VNum "0") ] /\
      sent (trace_of (handleOrderEvents (refusing "alice@shop.example") event
                        users)) = sent_to_sellers ++ []) /\
  (exists sent_to_sellers,
      Permutation sent_to_sellers
        [ sellerMail Deleted alice (VStr "Book") (VNum "1") (VNum "4") ] /\
      sent (trace_of (handleOrderEvents healthy event [alice; carol])) =
        sent_to_sellers
          ++ [ userMail Deleted carol [VStr "Book"; VStr "Pen"]
                 [VNum "1"; VNum "2"] ]).
Proof.
  split.
  - destruct (order_event_mails (refusing "alice@shop.example") users
                (order_event "order_deleted" [VNum "4"; VNum "0"])
                (VStr "order_deleted") Deleted
                (order_fields [VNum "4"; VNum "0"])
                [VStr "s1"; VStr "s2"] [] [VStr "Book"; VStr "Pen"]
                [VNum "1"; VNum "2"] [VNum "4"; VNum "0"]
                eq_refl eq_refl eq_refl eq_refl eq_refl eq_refl eq_refl
                (or_introl eq_refl) eq_refl eq_refl eq_refl eq_refl)
      as [_ [_ H]].
    exact H.
  - destruct (order_event_mails healthy [alice; carol]
                (order_event "order_deleted" [VNum "4"; VNum "0"])
                (VStr "order_deleted") Deleted
                (order_fields [VNum "4"; VNum "0"])
                [VStr "s1"; VStr "s2"] [] [VStr "Book"; VStr "Pen"]
                [VNum "1"; VNum "2"] [VNum "4"; VNum "0"]
                eq_refl eq_refl eq_refl eq_refl eq_refl eq_refl eq_refl
                (or_introl eq_refl) eq_refl eq_refl eq_refl eq_refl)
      as [_ [_ H]].
    exact H.
Defined.

Ltac reads_norm :=
  repeat first [ rewrite store_reads_app | rewrite store_reads_finds
               | progress cbn [store_reads] ].

(** X10.  For an order event of any of the three types with a readable
    [userId] and an array of [sellerIds], the reads of the store are: the
    buyer first, then one read for each entry of [sellerIds], in order and
    without deduplication; this holds whatever the rest of the payload is
    and whatever the store and the provider answer. *)
Theorem order_event_reads E s event ty kind userId sellerIds :
  get_prop event "type" = Ok ty ->
  order_kind_of ty = Some kind ->
  data_field event "userId" = Ok userId ->
  data_field event "sellerIds" = Ok (VArr sellerIds) ->
  store_reads (trace_of (handleOrderEvents E event s)) = userId :: sellerIds.
Proof.
  intros Hty Hkind Huser Hsellers.
  unfold handleOrderEvents, try_catch, bind at 1, lift.
  rewrite Hty, Hkind.
  unfold orderCase, orderFanOut, bind, lift, fetchUserDetails_call,
    User_findOne.
  rewrite Huser, Hsellers. cbn [obind as_array]. rewrite seller_calls_run.
  rewrite fetchUserDetails_resume_trace.
  destruct (lookup_log_silent userId (store_answer E s userId))
    as [_ Hlreads].
  pose proof (emits_seller_promises (fun e => negb (is_read e))
                (fun _ => eq_refl) (fun _ _ => eq_refl) E kind event
                sellerIds 0 (map (store_answer E s) sellerIds) s) as Hquiet.
  apply no_reads in Hquiet.
  destruct (seller_promises_run E kind event sellerIds 0
              (map (store_answer E s) sellerIds) s)
    as [promises [t [Hrun _]]].
  rewrite Hrun in Hquiet |- *. unfold trace_of in Hquiet. simpl in Hquiet.
  unfold ret. cbn [fst snd].
  destruct (Promise_all promises) as [[] | e];
    [ destruct (found (store_answer E s userId)) as [u |];
      [ destruct (userEmail kind event u) as [m | e];
        [ rewrite sendEmail_run; destruct (sendEmail_fails E m) | ] | ] | ];
    unfold trace_of, console_error, emit; simpl; reads_norm;
    rewrite ?Hlreads, ?Hquiet; simpl; rewrite ?app_nil_r; reflexivity.
Qed.

Lemma order_event_reads_witness :
  let event :=
    VObj [("type", VStr "order_updated");
          ("data", VObj [("userId", VStr "u1");
                         ("sellerIds", VArr [VStr "s1"; VStr "s1"])])] in
  store_reads (trace_of (handleOrderEvents healthy event users)) =
    [VStr "u1"; VStr "s1"; VStr "s1"].
Proof.
  apply (order_event_reads healthy users
           (VObj [("type", VStr "order_updated");
                  ("data", VObj [("userId", VStr "u1");
                                 ("sellerIds", VArr [VStr "s1"; VStr "s1"])])])
           (VStr "order_updated") Updated (VStr "u1")
           [VStr "s1"; VStr "s1"]); reflexivity.
Defined.

(** X11.  For an order event whose [sellerIds] is absent or is not an
    array, [sellerIds.map] throws after the buyer's read has been issued:
    the store is read once, for the buyer, no e-mail is sent to anyone, the
    [TypeError] is logged and the handler returns normally. *)
Theorem order_event_without_sellers E s event ty kind userId ids e :
  get_prop event "type" = Ok ty ->
  order_kind_of ty = Some kind ->
  data_field event "userId" = Ok userId ->
  data_field event "sellerIds" = Ok ids ->
  as_array ids "event.data.sellerIds" "map" = Throw e ->
  let run := handleOrderEvents E event s in
  result_of run = Ok tt /\
  store_of run = s /\
  store_reads (trace_of run) = [userId] /\
  sent (trace_of run) = [] /\
  In (ConsoleError "Error handling order event:" (err_message e))
     (trace_of run).
Proof.
  intros Hty Hkind Huser Hsellers Harray run.
  assert (Hrun :
    handleOrderEvents E event s =
      (Ok tt, s,
       StoreFindOne userId
         :: lookup_log userId (store_answer E s userId)
         ++ [ConsoleError "Error handling order event:" (err_message e)])).
  { unfold handleOrderEvents, try_catch, bind at 1, lift.
    rewrite Hty, Hkind.
    unfold orderCase, orderFanOut, bind, lift, fetchUserDetails_call,
      User_findOne.
    rewrite Huser, Hsellers. cbn [obind]. rewrite Harray.
    rewrite fetchUserDetails_resume_trace.
    unfold throw, console_error, emit. simpl. rewrite !app_nil_r.
    reflexivity. }
  subst run. rewrite Hrun. unfold result_of, store_of, trace_of. simpl.
  destruct (lookup_log_silent userId (store_answer E s userId))
    as [Hlsent Hlreads].
  rewrite store_reads_app, sent_app, Hlsent, Hlreads.
  repeat split. right. apply in_or_app. right. left. reflexivity.
Qed.

Lemma order_event_without_sellers_witness :
  let event :=
    VObj [("type", VStr "order_placed");
          ("data", VObj [("userId", VStr "u1");
                         ("sellerIds", VStr "s1")])] in
  sent (trace_of (handleOrderEvents healthy event users)) = [] /\
  store_reads (trace_of (handleOrderEvents healthy event users)) = [VStr "u1"].
Proof.
  destruct (order_event_without_sellers healthy users
              (VObj [("type", VStr "order_placed");
                     ("data", VObj [("userId", VStr "u1");
                                    ("sellerIds", VStr "s1")])])
              (VStr "order_placed") Placed (VStr "u1") (VStr "s1")
              (type_error "event.data.sellerIds.map is not a function")
              eq_refl eq_refl eq_refl eq_refl eq_refl)
    as [_ [_ [Hreads [Hsent _]]]].
  split; [ exact Hsent | exact Hreads ].
Defined.

Lemma remainingQuantity_of_nullish kind event fields index :
  get_prop event "data" = Ok (VObj fields) ->
  nullish (field (VObj fields) "remainingQuantities") = true ->
  exists e, remainingQuantity_of kind event index = Throw e.
Proof.
  intros Hdata Hnull.
  unfold remainingQuantity_of, line_field.
  rewrite (data_field_assoc event fields Hdata).
  destruct (field (VObj fields) "remainingQuantities");
    try discriminate Hnull; destruct kind; eexists; reflexivity.
Qed.

Lemma seller_promises_throwing E s kind event ids :
  (forall index, exists e, remainingQuantity_of kind event index = Throw e) ->
  forall index,
    exists promises t,
      seller_promises E kind event index ids (map (store_answer E s) ids) s
        = (Ok promises, s, t) /\
      sent t = [] /\
      (ids <> [] -> exists e, Promise_all promises = Throw e).
Proof.
  intros Hthrow.
  induction ids as [| sellerId rest IH]; intros index.
  - exists [], []. repeat split. intros H. contradiction H. reflexivity.
  - destruct (IH (S index)) as [promises [t2 [Hrest [Hsent _]]]].
    destruct (Hthrow index) as [e He].
    simpl seller_promises. unfold bind, settle, ret.
    unfold seller_resume, bind, lift.
    rewrite fetchUserDetails_resume_trace, He. cbv beta iota.
    rewrite Hrest.
    destruct (lookup_log_silent sellerId (store_answer E s sellerId))
      as [Hlsent _].
    eexists; eexists. split; [ reflexivity | ]. split.
    + rewrite !sent_app, Hlsent, Hsent. reflexivity.
    + intros _. exists e. reflexivity.
Qed.

(** X12.  For an order event of any of the three types with at least one
    line item whose [remainingQuantities] is absent or [null], every
    seller callback throws before its send, so the join rejects: no e-mail
    is sent, neither to the sellers nor to the buyer; the handler logs the
    error, returns normally and leaves the store as it is. *)
Theorem order_event_without_stock E s event ty kind fields sellerId rest :
  get_prop event "type" = Ok ty ->
  order_kind_of ty = Some kind ->
  get_prop event "data" = Ok (VObj fields) ->
  assoc "sellerIds" fields = Some (VArr (sellerId :: rest)) ->
  nullish (field (VObj fields) "remainingQuantities") = true ->
  let run := handleOrderEvents E event s in
  result_of run = Ok tt /\
  store_of run = s /\
  sent (trace_of run) = [].
Proof.
  intros Hty Hkind Hdata Hsellers Hnull run. subst run.
  split; [ | split ].
  - apply (handler_returns E _ _ (order_subscription E)).
  - apply reads_handleOrderEvents.
  - remember (sellerId :: rest) as sellerIds eqn:Hids.
    unfold handleOrderEvents, try_catch, bind at 1, lift.
    rewrite Hty, Hkind.
    unfold orderCase, orderFanOut, bind, lift, fetchUserDetails_call,
      User_findOne.
    rewrite !(data_field_assoc event fields Hdata). simpl.
    rewrite Hsellers. simpl. rewrite seller_calls_run.
    rewrite fetchUserDetails_resume_trace.
    destruct (seller_promises_throwing E s kind event sellerIds
                (fun index =>
                   remainingQuantity_of_nullish kind event fields index
                     Hdata Hnull) 0)
      as [promises [t [Hrun [Hsent Hthrow]]]].
    rewrite Hrun. unfold ret. cbn [fst snd].
    destruct (Hthrow ltac:(subst sellerIds; discriminate)) as [e He].
    rewrite He.
    match goal with
    | |- context [ lookup_log ?u ?a ] =>
        destruct (lookup_log_silent u a) as [Hlsent _]
    end.
    unfold trace_of, console_error, emit. simpl.
    sent_norm. rewrite Hlsent, Hsent. reflexivity.
Qed.

Lemma order_event_without_stock_witness :
  let event :=
    VObj [("type", VStr "order_placed");
          ("data", VObj [("userId", VStr "u1");
                         ("sellerIds", VArr [VStr "s1"]);
                         ("productIds", VArr [VStr "p1"]);
                         ("titles", VArr [VStr "Book"]);
                         ("quantities", VArr [VNum "1"])])] in
  sent (trace_of (handleOrderEvents healthy event users)) = [].
Proof.
  apply (order_event_without_stock healthy users
           (VObj [("type", VStr "order_placed");
                  ("data", VObj [("userId", VStr "u1");
                                 ("sellerIds", VArr [VStr "s1"]);
                                 ("productIds", VArr [VStr "p1"]);
                                 ("titles", VArr [VStr "Book"]);
                                 ("quantities", VArr [VNum "1"])])])
           (VStr "order_placed") Placed
           [("userId", VStr "u1"); ("sellerIds", VArr [VStr "s1"]);
            ("productIds", VArr [VStr "p1"]);
            ("titles", VArr [VStr "Book"]); ("quantities", VArr [VNum "1"])]
           (VStr "s1") []); reflexivity.
Defined.





(** ** syncUserData and the lookups *)

(** X14.  After a [user_data_sync] event that the store accepts, a lookup
    of the [id] of the event yields a record that carries the [username],
    [email] and [role] of the event (the document store being the one of
    the specification). *)
Theorem synced_user_is_found E s event id :
  get_prop event "id" = Ok id ->
  findOneAndUpdate_fails E id = None ->
  findOne_fails E id = None ->
  let s1 := store_of (syncUserData E event s) in
  exists u,
    result_of (fetchUserDetails E id s1) = Ok (Some u) /\
    u_username u = field event "username" /\
    u_email u = field event "email" /\
    u_role u = field event "role".
Proof.
  intros Hid Hwrite Hread s1. subst s1.
  pose proof (destructure_get_prop event "event" "id" "id" id Hid) as Hd.
  apply get_prop_field in Hid. subst id.
  rewrite (syncUserData_run E event s Hd). cbv zeta. rewrite Hwrite.
  unfold store_of. simpl.
  destruct (store_find_upsert (field event "id") (field event "username")
              (field event "email") (field event "role") s)
    as [u [Hu [_ Hfields]]].
  exists u. split; [ | exact Hfields ].
  rewrite fetchUserDetails_trace. unfold result_of. simpl.
  unfold store_answer. rewrite Hread, Hu. reflexivity.
Qed.

Lemma synced_user_is_found_witness :
  exists u,
    result_of (fetchUserDetails healthy (VStr "u1")
                 (store_of (syncUserData healthy sync_event users)))
      = Ok (Some u) /\
    u_username u = VStr "a" /\ u_email u = VStr "a@x" /\
    u_role u = VStr "seller".
Proof.
  apply (synced_user_is_found healthy users sync_event (VStr "u1"));
    reflexivity.
Defined.

Lemma records_of_sync_ge E event id s :
  records_of id s <= records_of id (store_of (syncUserData E event s)).
Proof.
  destruct (destructure event "event" "id") as [ev | e] eqn:Hd.
  - assert (ev = event) by (destruct event; inversion Hd; reflexivity).
    subst ev. rewrite (syncUserData_run E event s Hd). cbv zeta.
    destruct (findOneAndUpdate_fails E (field event "id")); unfold store_of;
      simpl; [ lia | ].
    rewrite records_of_other_upsert.
    destruct (existsb _ s); lia.
  - unfold syncUserData, try_catch, bind, lift. rewrite Hd.
    unfold store_of. simpl. lia.
Qed.

Lemma sync_all_ge E events id :
  forall s, records_of id s <= records_of id (sync_all E events s).
Proof.
  unfold sync_all. induction events as [| event rest IH]; intros s; simpl.
  - lia.
  - etransitivity; [ apply (records_of_sync_ge E event id s) | apply IH ].
Qed.

Lemma sync_all_app E l1 l2 s :
  sync_all E (l1 ++ l2) s = sync_all E l2 (sync_all E l1 s).
Proof. unfold sync_all. apply fold_left_app. Qed.

(** X15.  Starting from the empty store, whatever [user_data_sync] events
    are applied and in whatever order, no two records ever have the same
    id; and when the store accepts the writes, every event of the sequence
    that has a readable [id] leaves exactly one record of that id in the
    final store: records are created by the first event of an id and never
    removed (the document store being the one of the specification). *)
Theorem synced_store_has_one_record_per_id E events :
  unique_ids (sync_all E events []) /\
  ((forall id, findOneAndUpdate_fails E id = None) ->
   forall event id,
     In event events ->
     get_prop event "id" = Ok id ->
     records_of id (sync_all E events []) = 1).
Proof.
  pose proof (sync_all_unique E events [] ltac:(intros id; cbv; lia))
    as Hunique.
  split; [ exact Hunique | ].
  intros Haccept event id Hin Hid.
  apply Nat.le_antisymm; [ apply Hunique | ].
  apply in_split in Hin. destruct Hin as [l1 [l2 Hsplit]]. subst events.
  change (event :: l2) with ([event] ++ l2).
  rewrite !sync_all_app.
  etransitivity; [ | apply sync_all_ge ].
  unfold sync_all at 1. simpl.
  pose proof (destructure_get_prop event "event" "id" "id" id Hid) as Hd.
  apply get_prop_field in Hid. subst id.
  rewrite (syncUserData_run E event _ Hd). cbv zeta. rewrite Haccept.
  unfold store_of. simpl. rewrite records_of_upsert. lia.
Qed.
